(** * jira-json-github-import: the Github -> JIRA mapping core

    A shallow embedding of the transformation pipeline of the importer
    (the functions of the main module, from [mdToWiki] to
    [mapGithubDataToJiraData]) together with the properties its
    specification states about it. The retrieval of the records
    ([GithubDataLoader.ts]) and the reading and writing of files are not
    part of the pipeline: it starts from the parsed configuration and the
    two retrieved collections.

    Modelling conventions.
    - A JS string is a [string]; a JS array is a [list] (the program never
      updates an array in place, it only builds new ones); issue numbers are
      integers ([Z]) and [Number.prototype.toString] is their decimal
      rendering.
    - [null] and [undefined] are [None]. A function that can throw returns
      in [Throws]; one that also prints returns in [M], whose state is the
      console. [console.log] lines are recorded as events, without their
      colouring.
    - An object used as a dictionary is a [gmap string _] of its own
      properties. The dictionaries of the configuration (the user map, the
      map of a field specification) are looked up with keys taken from the
      records, logins and label names: such a lookup finds the own entry
      and, when there is none and the key names a member of
      [Object.prototype], that inherited member ([Object_get]). The comment
      dictionary is keyed by the trailing segment of an [issue_url], an
      issue number, and is looked up by its own properties. The label
      tables, whose own keys the code iterates, are association lists in
      [Object.keys] order.
    - [githubIssue.labels = ...] re-binds a field of the issue object the
      caller holds: a function that assigns it returns the issue as it
      leaves it, and the caller goes on with that issue.
    - The markdown converter is an external package: it is a parameter that
      either returns the converted text or throws. *)

From stdpp Require Import base option list list_monad strings pretty gmap.
From Stdlib Require Import Ascii ZArith Lia.

Open Scope string_scope.
Open Scope list_scope.

(** ** Exceptions, the console and the monad of the pipeline *)

Inductive exn : Type :=
  | TypeError (msg : string)
  | LibraryError (msg : string).

Inductive LogEvent : Type :=
  | LogConversionFailed (md : string)
  | LogMappingComments (n : nat)
  | LogTransformingIssue (number : Z)
  | LogMappingIssues (n : nat).

Definition Console : Type := list LogEvent.

(** A pure computation that may throw. *)
Definition Throws (A : Type) : Type := exn + A.

(** A computation that may throw and may print. *)
Definition M (A : Type) : Type := Console → Console * Throws A.

#[export] Instance Throws_ret : MRet Throws := λ A x, inr x.
#[export] Instance Throws_bind : MBind Throws := λ A B f m,
  match m with
  | inl e => inl e
  | inr x => f x
  end.

#[export] Instance M_ret : MRet M := λ A x out, (out, inr x).
#[export] Instance M_bind : MBind M := λ A B f m out,
  match m out with
  | (out', inl e) => (out', inl e)
  | (out', inr x) => f x out'
  end.

Definition lift {A} (m : Throws A) : M A := λ out, (out, m).
Definition console_log (ev : LogEvent) : M unit := λ out, (out ++ [ev], inr tt).
Definition try_catch {A} (body : M A) (handler : exn → M A) : M A := λ out,
  match body out with
  | (out', inl e) => handler e out'
  | (out', inr x) => (out', inr x)
  end.

(** ** The JS string and array primitives the program uses *)

(** [label.startsWith(prefix)] *)
Definition startsWith (s searchString : string) : bool :=
  String.prefix searchString s.

Fixpoint drop_chars (n : nat) (s : string) : string :=
  match n, s with
  | O, _ => s
  | S n', String _ s' => drop_chars n' s'
  | S _, EmptyString => EmptyString
  end.

(** [s.replace(pattern, replacement)] with a string pattern: the leftmost
    occurrence only. The program's replacement is the empty string, which
    has no [$] pattern. *)
Fixpoint replace (s pattern replacement : string) : string :=
  if String.prefix pattern s
  then replacement +:+ drop_chars (String.length pattern) s
  else match s with
       | EmptyString => EmptyString
       | String c s' => String c (replace s' pattern replacement)
       end.

(** [s.split(separator)] with a one-character separator. *)
Fixpoint split (s : string) (separator : ascii) : list string :=
  match s with
  | EmptyString => [EmptyString]
  | String c s' =>
      if Ascii.eqb c separator then EmptyString :: split s' separator
      else match split s' separator with
           | [] => [String c EmptyString]
           | w :: ws => String c w :: ws
           end
  end.

(** [parts.join(separator)] *)
Fixpoint join (parts : list string) (separator : string) : string :=
  match parts with
  | [] => EmptyString
  | [w] => w
  | w :: ws => w +:+ separator +:+ join ws separator
  end.

(** [s.slice(0, -1)] *)
Fixpoint slice_0_m1 (s : string) : string :=
  match s with
  | EmptyString => EmptyString
  | String c EmptyString => EmptyString
  | String c s' => String c (slice_0_m1 s')
  end.

(** [names.includes(x)] *)
Definition includes (l : list string) (x : string) : bool :=
  bool_decide (x ∈ l).

(** [n.toString()] and the [${n}] of a template literal, for an integer. *)
Definition Number_toString (n : Z) : string := pretty n.

(** A JS string is falsy exactly when it is empty. *)
Definition truthy (s : string) : bool :=
  match s with
  | EmptyString => false
  | _ => true
  end.

(** What a record holds where its interface expects a string: a string, or
    a member inherited from [Object.prototype] (a function, or the
    prototype itself under [__proto__]), which is what a lookup in a plain
    object returns for a key that names one and is not an own property. *)
Inductive Value : Type :=
  | Str (s : string)
  | Inherited (name : string).

#[export] Instance Value_eq_dec : EqDecision Value.
Proof. solve_decision. Defined.

(** The names of the members of [Object.prototype]. *)
Definition Object_prototype_members : list string :=
  [ "constructor"; "hasOwnProperty"; "isPrototypeOf"; "propertyIsEnumerable";
    "toLocaleString"; "toString"; "valueOf"; "__proto__";
    "__defineGetter__"; "__defineSetter__"; "__lookupGetter__"; "__lookupSetter__" ].

(** [object[key]] for a plain object whose own properties are strings:
    the own property, else the inherited member, else [undefined]. *)
Definition Object_get (entries : gmap string string) (key : string) : option Value :=
  match entries !! key with
  | Some s => Some (Str s)
  | None =>
      if bool_decide (key ∈ Object_prototype_members) then Some (Inherited key)
      else None
  end.

(** Functions and objects are truthy. *)
Definition truthyValue (v : Value) : bool :=
  match v with
  | Str s => truthy s
  | Inherited _ => true
  end.

(** [[...new Set(xs)]]: the distinct elements in order of first insertion. *)
Definition Set_to_array (xs : list string) : list string :=
  fold_left (λ seen x, if bool_decide (x ∈ seen) then seen else seen ++ [x]) xs [].

(** ** Data model *)

Module GithubUser.
Record t : Type := { login : string }.
End GithubUser.

Module GithubLabel.
Record t : Type := { name : string }.
End GithubLabel.

Module GithubMilestone.
Record t : Type := { title : string }.
End GithubMilestone.

Module GithubComment.
Record t : Type := {
  body : string;
  user : GithubUser.t;
  created_at : string;
  issue_url : string;
}.
End GithubComment.

Inductive IssueState : Type := open | closed.

Module GithubIssue.
Record t : Type := {
  labels : list GithubLabel.t;
  number : Z;
  state : IssueState;
  user : GithubUser.t;
  assignee : option GithubUser.t;
  created_at : string;
  updated_at : string;
  title : string;
  body : string;
  milestone : option GithubMilestone.t;
}.

(** [issue.labels = ls] *)
Definition set_labels (issue : t) (ls : list GithubLabel.t) : t :=
  {| labels := ls; number := number issue; state := state issue;
     user := user issue; assignee := assignee issue;
     created_at := created_at issue; updated_at := updated_at issue;
     title := title issue; body := body issue;
     milestone := milestone issue |}.
End GithubIssue.

Module JiraComment.
Record t : Type := {
  body : string;
  author : string;
  created : string;
}.
End JiraComment.

Module JiraCustomField.
Record t : Type := {
  fieldName : string;
  fieldType : string;
  value : list Value;
}.
End JiraCustomField.

Module JiraIssue.
(** [resolution] is a string or [null]; [assignee] is a value or [null];
    [reporter] is a value or [undefined]. *)
Record t : Type := {
  key : string;
  status : string;
  resolution : option string;
  reporter : option Value;
  assignee : option Value;
  fixedVersions : list string;
  created : string;
  updated : string;
  summary : string;
  description : string;
  issueType : string;
  priority : string;
  labels : list string;
  customFieldValues : list JiraCustomField.t;
  comments : list JiraComment.t;
}.
End JiraIssue.

Module JiraProject.
Record t : Type := {
  name : string;
  externalName : string;
  key : string;
  issues : list JiraIssue.t;
  versions : list string;
}.
End JiraProject.

(** A label table of the configuration ([issueTypeMap], [priorityMap]):
    its entries in [Object.keys] order. *)
Definition Table : Type := list (string * string).

Definition Object_keys (map : Table) : list string := map.*1.
Definition Object_values (map : Table) : list string := map.*2.

(** [map[k]] *)
Fixpoint Table_get (map : Table) (k : string) : option string :=
  match map with
  | [] => None
  | (k', v) :: rest => if String.eqb k' k then Some v else Table_get rest k
  end.

Module FieldSpec.
Record t : Type := {
  fieldName : string;
  fieldType : string;
  map : option (gmap string string);
  prefixes : option (list string);
}.
End FieldSpec.

(** The parsed [config.yaml]. An optional entry that is missing is [None]. *)
Module Config.
Record t : Type := {
  projectKey : string;
  repo : string;
  priorityMap : option Table;
  defaultPriority : option string;
  issueTypeMap : option Table;
  defaultIssueType : option string;
  userMap : option (gmap string string);
  customFields : option (list FieldSpec.t);
}.
End Config.

(** What the retrieval step hands over; [githubComments] is [null] when the
    comments were not fetched. *)
Module GithubData.
Record t : Type := {
  githubIssues : list GithubIssue.t;
  githubComments : option (list GithubComment.t);
}.
End GithubData.

Module JiraData.
Record t : Type := { projects : list JiraProject.t }.
End JiraData.

(** ** The transformation pipeline *)

Section Pipeline.

(** The external markdown converter and the parsed configuration, both
    module-level constants of the program. *)
Variable markdownToAtlassianWikiMarkup : string → Throws string.
Variable config : Config.t.

Definition projectKey : string := Config.projectKey config.
Definition repo : string := Config.repo config.
Definition priorityMap : option Table := Config.priorityMap config.
Definition defaultPriority : string :=
  default "Medium" (Config.defaultPriority config).
Definition issueTypeMap : option Table := Config.issueTypeMap config.
Definition defaultIssueType : string :=
  default "Story" (Config.defaultIssueType config).

(** [userMap[login]]: reading a property of [undefined] throws. *)
Definition userMap (login : string) : Throws (option Value) :=
  match Config.userMap config with
  | None => inl (TypeError "Cannot read properties of undefined")
  | Some entries => inr (Object_get entries login)
  end.

Definition mdToWiki (md : string) : M string :=
  try_catch (lift (markdownToAtlassianWikiMarkup md))
    (λ _, console_log (LogConversionFailed md);; mret md).

Definition mapDate (githubDate : string) : string :=
  slice_0_m1 githubDate +:+ "+00:00".

Definition mapGithubCommentsToJiraComments
    (githubComments : list GithubComment.t) : M (list JiraComment.t) :=
  console_log (LogMappingComments (length githubComments));;
  mapM (λ comment,
    body ← mdToWiki (GithubComment.body comment);
    mret {| JiraComment.body := body;
            JiraComment.author := GithubUser.login (GithubComment.user comment);
            JiraComment.created := mapDate (GithubComment.created_at comment) |})
    githubComments.

(** One step of the reduction over [Object.keys(map)]: the accumulator is
    paired with the issue, whose [labels] field the step may re-bind.
    [githubLabel] is a key of [map], so [map[githubLabel]] is never the
    [undefined] that the lookup would give for a missing key. *)
Definition mapLabelToValue_step (map : Table)
    (acc : string * GithubIssue.t) (githubLabel : string) : string * GithubIssue.t :=
  let '(currentValue, githubIssue) := acc in
  let githubLabelNames := GithubLabel.name <$> GithubIssue.labels githubIssue in
  if includes githubLabelNames githubLabel then
    (default "undefined" (Table_get map githubLabel),
     GithubIssue.set_labels githubIssue
       (filter (λ label, GithubLabel.name label ≠ githubLabel)
               (GithubIssue.labels githubIssue)))
  else (currentValue, githubIssue).

(** Returns the value together with the issue as the call leaves it. *)
Definition mapLabelToValue (githubIssue : GithubIssue.t) (map : option Table)
    (defaultValue : string) : string * GithubIssue.t :=
  match map with
  | None => (defaultValue, githubIssue)
  | Some map =>
      if Nat.eqb (length (Object_values map)) 0 then (defaultValue, githubIssue)
      else fold_left (mapLabelToValue_step map) (Object_keys map)
                     (defaultValue, githubIssue)
  end.

(** The [value] of one field specification. With [map] set, what
    [map[name]] gives for the labels for which it is truthy; otherwise the
    labels that
    start with a prefix, the prefixes replaced and the spaces turned into
    underscores. When neither is set [prefixes.some] throws at the first
    label. *)
Definition customFieldValue (spec : FieldSpec.t)
    (githubLabels : list GithubLabel.t) : Throws (list Value) :=
  match FieldSpec.map spec with
  | Some map =>
      inr (fold_left
             (λ acc githubLabel,
                match Object_get map githubLabel with
                | Some v => if truthyValue v then acc ++ [v] else acc
                | None => acc
                end)
             (GithubLabel.name <$> githubLabels) [])
  | None =>
      match FieldSpec.prefixes spec with
      | None =>
          match githubLabels with
          | [] => inr []
          | _ :: _ => inl (TypeError "Cannot read properties of undefined")
          end
      | Some prefixes =>
          inr ((λ label, Str (join (split label " "%char) "_")) <$>
               fold_left
                 (λ acc label,
                    acc ++ [fold_left (λ result prefix, replace result prefix "")
                                      prefixes label])
                 (List.filter
                    (λ label, existsb (λ prefix, startsWith label prefix) prefixes)
                    (GithubLabel.name <$> githubLabels))
                 [])
      end
  end.

Definition mapLabelsToCustomFields
    (githubLabels : list GithubLabel.t) : Throws (list JiraCustomField.t) :=
  match Config.customFields config with
  | None => inl (TypeError "Cannot read properties of undefined")
  | Some customFields =>
      if Nat.eqb (length customFields) 0 then inr []
      else mapM (λ spec,
             value ← customFieldValue spec githubLabels;
             mret {| JiraCustomField.fieldName := FieldSpec.fieldName spec;
                     JiraCustomField.fieldType := FieldSpec.fieldType spec;
                     JiraCustomField.value := value |})
           customFields
  end.

(** The properties of the object literal are evaluated in source order.
    Returns the target issue and the source issue as the call leaves it. *)
Definition mapGithubIssueToJiraIssue (issue : GithubIssue.t)
    (issueComments : option (list GithubComment.t)) : M (JiraIssue.t * GithubIssue.t) :=
  console_log (LogTransformingIssue (GithubIssue.number issue));;
  let key := projectKey +:+ "-" +:+ Number_toString (GithubIssue.number issue) in
  let status := "To Do" in
  let resolution :=
    match GithubIssue.state issue with
    | closed => Some "Fixed"
    | open => None
    end in
  reporter ← lift (userMap (GithubUser.login (GithubIssue.user issue)));
  assignee ← lift
    match GithubIssue.assignee issue with
    | Some assignee =>
        mapped ← userMap (GithubUser.login assignee);
        mret (Some match mapped with
                   | Some jiraUser =>
                       if truthyValue jiraUser then jiraUser
                       else Str (GithubUser.login assignee)
                   | None => Str (GithubUser.login assignee)
                   end)
    | None => mret None
    end;
  let fixedVersions :=
    match GithubIssue.milestone issue with
    | Some milestone => [GithubMilestone.title milestone]
    | None => []
    end in
  let created := mapDate (GithubIssue.created_at issue) in
  let updated := mapDate (GithubIssue.updated_at issue) in
  let summary := GithubIssue.title issue in
  description ← mdToWiki (GithubIssue.body issue);
  let '(issueType, issue) := mapLabelToValue issue issueTypeMap defaultIssueType in
  let '(priority, issue) := mapLabelToValue issue priorityMap defaultPriority in
  let labels := GithubLabel.name <$> GithubIssue.labels issue in
  customFieldValues ← lift (mapLabelsToCustomFields (GithubIssue.labels issue));
  comments ←
    match issueComments with
    | Some issueComments => mapGithubCommentsToJiraComments issueComments
    | None => mret []
    end;
  mret ({| JiraIssue.key := key;
           JiraIssue.status := status;
           JiraIssue.resolution := resolution;
           JiraIssue.reporter := reporter;
           JiraIssue.assignee := assignee;
           JiraIssue.fixedVersions := fixedVersions;
           JiraIssue.created := created;
           JiraIssue.updated := updated;
           JiraIssue.summary := summary;
           JiraIssue.description := description;
           JiraIssue.issueType := issueType;
           JiraIssue.priority := priority;
           JiraIssue.labels := labels;
           JiraIssue.customFieldValues := customFieldValues;
           JiraIssue.comments := comments |}, issue).

(** [commentsDictionary[issue.number]] *)
Definition commentsOf (commentsDictionary : gmap string (list GithubComment.t))
    (issue : GithubIssue.t) : option (list GithubComment.t) :=
  commentsDictionary !! Number_toString (GithubIssue.number issue).

Definition mapGithubIssuesToJiraIssues (githubIssues : list GithubIssue.t)
    (commentsDictionary : gmap string (list GithubComment.t))
    : M (list (JiraIssue.t * GithubIssue.t)) :=
  console_log (LogMappingIssues (length githubIssues));;
  mapM (λ issue,
          mapGithubIssueToJiraIssue issue (commentsOf commentsDictionary issue))
       githubIssues.

(** [parts.pop()] of a freshly built array *)
Definition pop (parts : list string) : string := default "undefined" (last parts).

(** [comment.issue_url.split('/').pop()] *)
Definition issueNumberOf (comment : GithubComment.t) : string :=
  pop (split (GithubComment.issue_url comment) "/"%char).

Definition createCommentDictionary_step
    (dictionary : gmap string (list GithubComment.t)) (comment : GithubComment.t)
    : gmap string (list GithubComment.t) :=
  let issueNumber := issueNumberOf comment in
  <[issueNumber :=
      match dictionary !! issueNumber with
      | Some group => group ++ [comment]
      | None => [comment]
      end]> dictionary.

(** [githubComments.reduce] throws when the collection is [null]. *)
Definition createCommentDictionary (githubComments : option (list GithubComment.t))
    : Throws (gmap string (list GithubComment.t)) :=
  match githubComments with
  | None => inl (TypeError "Cannot read properties of null")
  | Some githubComments => inr (fold_left createCommentDictionary_step githubComments ∅)
  end.

(** [[...new Set(issues.flatMap(issue => issue.fixedVersions))]] *)
Definition projectVersions (issues : list JiraIssue.t) : list string :=
  Set_to_array (flat_map JiraIssue.fixedVersions issues).

(** Returns the output structure and the source issues as the run leaves
    them. *)
Definition mapGithubDataToJiraData (githubData : GithubData.t)
    : M (JiraData.t * list GithubIssue.t) :=
  let githubIssues := GithubData.githubIssues githubData in
  let githubComments := GithubData.githubComments githubData in
  commentDictionary ← lift (createCommentDictionary githubComments);
  mapped ← mapGithubIssuesToJiraIssues githubIssues commentDictionary;
  let issues := mapped.*1 in
  let project :=
    {| JiraProject.name := repo;
       JiraProject.externalName := repo;
       JiraProject.key := Config.projectKey config;
       JiraProject.issues := issues;
       JiraProject.versions := projectVersions issues |} in
  mret ({| JiraData.projects := [project] |}, mapped.*2).

End Pipeline.

(** ** Derived notions used to state the properties *)

(** The issue as issue-type classification leaves it, and as the priority
    classification that follows leaves it. *)
Definition afterIssueType (config : Config.t) (issue : GithubIssue.t) : GithubIssue.t :=
  (mapLabelToValue issue (issueTypeMap config) (defaultIssueType config)).2.

Definition afterPriority (config : Config.t) (issue : GithubIssue.t) : GithubIssue.t :=
  (mapLabelToValue (afterIssueType config issue)
     (priorityMap config) (defaultPriority config)).2.

(** The assignee [userMap[login] || login] resolves to. *)
Definition resolveAssignee (entries : gmap string string) (login : string) : Value :=
  match Object_get entries login with
  | Some jiraUser => if truthyValue jiraUser then jiraUser else Str login
  | None => Str login
  end.

(** A configuration with which no property read of the mapper throws: the
    user map and the field specifications are present, and every
    specification sets [map] or [prefixes]. *)
Definition Config_complete (config : Config.t) : bool :=
  bool_decide (is_Some (Config.userMap config)) &&
  match Config.customFields config with
  | Some specs =>
      forallb (λ spec, bool_decide (is_Some (FieldSpec.map spec)) ||
                       bool_decide (is_Some (FieldSpec.prefixes spec))) specs
  | None => false
  end.

(** The names of the labels an issue carries. *)
Definition labelNames (issue : GithubIssue.t) : list string :=
  GithubLabel.name <$> GithubIssue.labels issue.

(** [c] occurs in [s]. *)
Fixpoint containsChar (c : ascii) (s : string) : bool :=
  match s with
  | EmptyString => false
  | String c' s' => Ascii.eqb c' c || containsChar c s'
  end.

(** *** The prefix mode of the custom field mapper, in the words of its
    specification *)

(** [label] starts with [prefix]. *)
Definition isPrefixOf (prefix label : string) : Prop :=
  ∃ rest, label = prefix +:+ rest.

#[export] Instance isPrefixOf_dec prefix label : Decision (isPrefixOf prefix label).
Proof.
  unfold isPrefixOf. revert label.
  induction prefix as [|a prefix IH]; intros label.
  - left. by exists label.
  - destruct label as [|b label].
    + right. by intros [rest ?].
    + destruct (decide (a = b)) as [->|Hne].
      * destruct (IH label) as [Hyes|Hno].
        -- left. destruct Hyes as [rest ->]. by exists rest.
        -- right. intros [rest [= ->]]. apply Hno. by exists rest.
      * right. by intros [rest [= ? _]].
Defined.

(** [label] starts with at least one of the configured prefixes. *)
Definition startsWithOneOf (prefixes : list string) (label : string) : Prop :=
  Exists (λ prefix, isPrefixOf prefix label) prefixes.

(** Every configured prefix replaced, in order, by the empty string. *)
Definition replacePrefixes (prefixes : list string) (label : string) : string :=
  fold_left (λ result prefix, replace result prefix "") prefixes label.

(** Every space replaced by an underscore. *)
Fixpoint spacesToUnderscores (s : string) : string :=
  match s with
  | EmptyString => EmptyString
  | String c s' =>
      String (if Ascii.eqb c " " then "_"%char else c) (spacesToUnderscores s')
  end.

Definition prefixModeValues (prefixes : list string) (labelNames : list string)
    : list string :=
  (λ label, spacesToUnderscores (replacePrefixes prefixes label)) <$>
  filter (startsWithOneOf prefixes) labelNames.

(** The comments of a list that belong to the group of a key, in input
    order. *)
Definition groupOf (key : string) (comments : list GithubComment.t)
    : list GithubComment.t :=
  filter (λ comment, issueNumberOf comment = key) comments.

(** A group extended by the comments that follow. *)
Definition extendGroup (group : option (list GithubComment.t))
    (more : list GithubComment.t) : option (list GithubComment.t) :=
  match more with
  | [] => group
  | _ :: _ => Some (default [] group ++ more)
  end.

(** ** A sample configuration and sample records *)

Definition sampleConverter (md : string) : Throws string :=
  if String.eqb md "<<" then inl (LibraryError "unexpected token") else inr md.

Definition sampleIssueTypeMap : Table := [("bug", "Bug"); ("feature", "Story")].

Definition sampleUserMap : gmap string string :=
  <["octocat" := ""]> (<["alice" := "alice.jira"]> ∅).

Definition teamSpec : FieldSpec.t :=
  {| FieldSpec.fieldName := "Team"; FieldSpec.fieldType := "labels";
     FieldSpec.map := None; FieldSpec.prefixes := Some ["team-"] |}.

Definition sampleSpecs : list FieldSpec.t := [teamSpec].

Definition sampleConfig : Config.t :=
  {| Config.projectKey := "PRJ"; Config.repo := "widgets";
     Config.priorityMap := Some [("urgent", "High")];
     Config.defaultPriority := None;
     Config.issueTypeMap := Some sampleIssueTypeMap;
     Config.defaultIssueType := Some "Story";
     Config.userMap := Some sampleUserMap;
     Config.customFields := Some sampleSpecs |}.

Definition label (name : string) : GithubLabel.t := {| GithubLabel.name := name |}.
Definition account (login : string) : GithubUser.t := {| GithubUser.login := login |}.

Definition issue42 : GithubIssue.t :=
  {| GithubIssue.labels := [label "feature"; label "bug"];
     GithubIssue.number := 42; GithubIssue.state := closed;
     GithubIssue.user := account "alice";
     GithubIssue.assignee := Some (account "octocat");
     GithubIssue.created_at := "2021-01-01T00:00:00Z";
     GithubIssue.updated_at := "2021-01-02T00:00:00Z";
     GithubIssue.title := "Crash on start"; GithubIssue.body := "<<";
     GithubIssue.milestone := Some {| GithubMilestone.title := "v1.0" |} |}.

Definition issue7 : GithubIssue.t :=
  {| GithubIssue.labels := [label "team-backend infra"; label "urgent"];
     GithubIssue.number := 7; GithubIssue.state := open;
     GithubIssue.user := account "bob";
     GithubIssue.assignee := None;
     GithubIssue.created_at := "2020-12-01T00:00:00Z";
     GithubIssue.updated_at := "2020-12-02T00:00:00Z";
     GithubIssue.title := "Add export"; GithubIssue.body := "please";
     GithubIssue.milestone := Some {| GithubMilestone.title := "v1.0" |} |}.

Definition commentOn (url body : string) : GithubComment.t :=
  {| GithubComment.body := body; GithubComment.user := account "bob";
     GithubComment.created_at := "2021-01-03T00:00:00Z";
     GithubComment.issue_url := url |}.

Definition sampleComments : list GithubComment.t :=
  [ commentOn "https://api.github.com/repos/o/widgets/issues/7" "first";
    commentOn "https://api.github.com/repos/o/widgets/issues/9" "elsewhere";
    commentOn "https://api.github.com/repos/o/widgets/issues/7" "second" ].

Definition sampleData : GithubData.t :=
  {| GithubData.githubIssues := [issue42; issue7];
     GithubData.githubComments := Some sampleComments |}.

(** ** Further notions used to state properties of the pipeline *)

(** The keys of a label table that may be absent. *)
Definition keysOf (map : option Table) : list string :=
  match map with
  | Some map => Object_keys map
  | None => []
  end.

(** The labels that carry none of the given names. *)
Definition labelsOutside (keys : list string) (labels : list GithubLabel.t)
    : list GithubLabel.t :=
  filter (λ label, GithubLabel.name label ∉ keys) labels.

(** What follows [prefix] in [s], when [s] starts with it. *)
Fixpoint afterPrefix (prefix s : string) : option string :=
  match prefix, s with
  | EmptyString, _ => Some s
  | String a prefix', String b s' =>
      if Ascii.eqb a b then afterPrefix prefix' s' else None
  | String _ _, EmptyString => None
  end.

(** The map mode of the custom field mapper. What a label name contributes:
    the own entry of the map when it is a non-empty string; the inherited
    member when the map has no own entry and the name is that of a member
    of [Object.prototype]; nothing otherwise. *)
Definition mapModeValue (map : gmap string string) (name : string) : option Value :=
  match map !! name with
  | Some EmptyString => None
  | Some entry => Some (Str entry)
  | None =>
      if bool_decide (name ∈ Object_prototype_members) then Some (Inherited name)
      else None
  end.

Definition mapModeValues (map : gmap string string) (labelNames : list string)
    : list Value :=
  omap (mapModeValue map) labelNames.

(** A field specification the mapper can evaluate on the given labels. *)
Definition specUsable (githubLabels : list GithubLabel.t) (spec : FieldSpec.t) : Prop :=
  is_Some (FieldSpec.map spec) ∨ is_Some (FieldSpec.prefixes spec) ∨ githubLabels = [].

(** The text the rich text converter hands back: the converted markup, or
    the original text when the conversion throws. *)
Definition convertedOrOriginal (markdownToAtlassianWikiMarkup : string → Throws string)
    (md : string) : string :=
  match markdownToAtlassianWikiMarkup md with
  | inr wiki => wiki
  | inl _ => md
  end.

(** The console lines that converting a list of texts leaves: one for each
    text whose conversion throws, in order. *)
Definition conversionFailures (markdownToAtlassianWikiMarkup : string → Throws string)
    (mds : list string) : list LogEvent :=
  flat_map (λ md, match markdownToAtlassianWikiMarkup md with
                  | inr _ => []
                  | inl _ => [LogConversionFailed md]
                  end) mds.

(** The target comment of a source comment. *)
Definition toJiraComment (markdownToAtlassianWikiMarkup : string → Throws string)
    (comment : GithubComment.t) : JiraComment.t :=
  {| JiraComment.body :=
       convertedOrOriginal markdownToAtlassianWikiMarkup (GithubComment.body comment);
     JiraComment.author := GithubUser.login (GithubComment.user comment);
     JiraComment.created := mapDate (GithubComment.created_at comment) |}.

(** The console lines that mapping a comment group leaves. *)
Definition commentsTrace (markdownToAtlassianWikiMarkup : string → Throws string)
    (issueComments : option (list GithubComment.t)) : list LogEvent :=
  match issueComments with
  | Some comments =>
      LogMappingComments (length comments) ::
      conversionFailures markdownToAtlassianWikiMarkup (GithubComment.body <$> comments)
  | None => []
  end.

(** The console lines that mapping one issue leaves. *)
Definition issueTrace (markdownToAtlassianWikiMarkup : string → Throws string)
    (issue : GithubIssue.t) (issueComments : option (list GithubComment.t))
    : list LogEvent :=
  LogTransformingIssue (GithubIssue.number issue) ::
  conversionFailures markdownToAtlassianWikiMarkup [GithubIssue.body issue] ++
  commentsTrace markdownToAtlassianWikiMarkup issueComments.

(** The condition under which the issue mapper returns for an issue: the
    user map is present and the custom field mapper returns on the labels
    that classification leaves. *)
Definition issueMappable (config : Config.t) (issue : GithubIssue.t) : Prop :=
  is_Some (Config.userMap config) ∧
  ∃ fields,
    mapLabelsToCustomFields config (GithubIssue.labels (afterPriority config issue))
      = inr fields.

(** The target issue the mapper builds, given the entries of the user map
    and the custom fields computed from the labels that classification
    leaves. *)
Definition mappedIssue (markdownToAtlassianWikiMarkup : string → Throws string)
    (config : Config.t) (entries : gmap string string)
    (customFieldValues : list JiraCustomField.t)
    (issue : GithubIssue.t) (issueComments : option (list GithubComment.t))
    : JiraIssue.t :=
  {| JiraIssue.key :=
       projectKey config +:+ "-" +:+ Number_toString (GithubIssue.number issue);
     JiraIssue.status := "To Do";
     JiraIssue.resolution :=
       match GithubIssue.state issue with closed => Some "Fixed" | open => None end;
     JiraIssue.reporter :=
       Object_get entries (GithubUser.login (GithubIssue.user issue));
     JiraIssue.assignee :=
       (λ a, resolveAssignee entries (GithubUser.login a)) <$> GithubIssue.assignee issue;
     JiraIssue.fixedVersions :=
       match GithubIssue.milestone issue with
       | Some milestone => [GithubMilestone.title milestone]
       | None => []
       end;
     JiraIssue.created := mapDate (GithubIssue.created_at issue);
     JiraIssue.updated := mapDate (GithubIssue.updated_at issue);
     JiraIssue.summary := GithubIssue.title issue;
     JiraIssue.description :=
       convertedOrOriginal markdownToAtlassianWikiMarkup (GithubIssue.body issue);
     JiraIssue.issueType :=
       (mapLabelToValue issue (issueTypeMap config) (defaultIssueType config)).1;
     JiraIssue.priority :=
       (mapLabelToValue (afterIssueType config issue)
          (priorityMap config) (defaultPriority config)).1;
     JiraIssue.labels :=
       GithubLabel.name <$> GithubIssue.labels (afterPriority config issue);
     JiraIssue.customFieldValues := customFieldValues;
     JiraIssue.comments :=
       match issueComments with
       | Some comments => toJiraComment markdownToAtlassianWikiMarkup <$> comments
       | None => []
       end |}.

(** The distinct elements of a list in the order of their first
    occurrence. *)
Fixpoint firstOccurrences (xs : list string) : list string :=
  match xs with
  | [] => []
  | x :: xs' => x :: filter (λ y, y ≠ x) (firstOccurrences xs')
  end.

(** The number of comments a dictionary holds, over all its groups. *)
Definition groupedCount (dictionary : gmap string (list GithubComment.t)) : nat :=
  map_fold (λ _ group n, length group + n) 0 dictionary.

(** ** The top level, from the moment the retrieval has settled

    [Promise.all(dataSets)] settles with the two collections or with the
    rejection of a fetch; the chain of [then] steps that follows is
    sequential. The file system is a parameter: which file names it accepts.
    A file is recorded with the value that was serialised into it, at the
    time of the call. *)

Inductive FileContent : Type :=
  | RawGithubData (data : GithubData.t)
  | ConvertedData (data : JiraData.t).

Inductive Line : Type :=
  | PipelineLine (ev : LogEvent)
  | LogWriting (filename : string)
  | LogFailedToConvert (e : exn).

Module World.
Record t : Type := {
  stdout : list Line;
  written : list (string * FileContent);
}.
End World.

Definition RAW_GITHUB_FILENAME : string := "github.json".
Definition OUTPUT_FILENAME : string := "output.json".

Section TopLevel.

Variable markdownToAtlassianWikiMarkup : string → Throws string.
Variable config : Config.t.
(** Whether [fs.writeFileSync] succeeds on a file name. *)
Variable writable : string → bool.

(** [LOG_LEVEL] is the constant 'debug': the line is always printed. *)
Definition writeJSON (data : FileContent) (filename : string)
    (world : World.t) : World.t * Throws FileContent :=
  let stdout := World.stdout world ++ [LogWriting filename] in
  if writable filename then
    ({| World.stdout := stdout;
        World.written := World.written world ++ [(filename, data)] |}, inr data)
  else
    ({| World.stdout := stdout; World.written := World.written world |},
     inl (LibraryError "EACCES")).

(** The [then] steps, without the final [catch]. *)
Definition convertSteps (settled : Throws GithubData.t) (world : World.t)
    : World.t * Throws JiraData.t :=
  match settled with
  | inl e => (world, inl e)
  | inr objData =>
      match writeJSON (RawGithubData objData) RAW_GITHUB_FILENAME world with
      | (world, inl e) => (world, inl e)
      | (world, inr _) =>
          match mapGithubDataToJiraData markdownToAtlassianWikiMarkup config objData []
          with
          | (lines, result) =>
              let world :=
                {| World.stdout := World.stdout world ++ (PipelineLine <$> lines);
                   World.written := World.written world |} in
              match result with
              | inl e => (world, inl e)
              | inr (jiraData, _) =>
                  match writeJSON (ConvertedData jiraData) OUTPUT_FILENAME world with
                  | (world, inl e) => (world, inl e)
                  | (world, inr _) => (world, inr jiraData)
                  end
              end
          end
      end
  end.

(** The whole chain: a rejection anywhere is printed and thrown again. *)
Definition convertFetched (settled : Throws GithubData.t) (world : World.t)
    : World.t * Throws JiraData.t :=
  match convertSteps settled world with
  | (world, inl e) =>
      ({| World.stdout := World.stdout world ++ [LogFailedToConvert e];
          World.written := World.written world |}, inl e)
  | (world, inr jiraData) => (world, inr jiraData)
  end.

End TopLevel.

(** ** More sample records *)

Definition componentSpec : FieldSpec.t :=
  {| FieldSpec.fieldName := "Component"; FieldSpec.fieldType := "select";
     FieldSpec.map := Some (<["frontend" := "UI"]> (<["legacy" := ""]> ∅));
     FieldSpec.prefixes := Some ["team-"] |}.

Definition secondConfig : Config.t :=
  {| Config.projectKey := "WID"; Config.repo := "widgets";
     Config.priorityMap := Some [("bug", "High")];
     Config.defaultPriority := Some "Low";
     Config.issueTypeMap := Some sampleIssueTypeMap;
     Config.defaultIssueType := None;
     Config.userMap := Some sampleUserMap;
     Config.customFields := Some [componentSpec; teamSpec] |}.

Definition issue9 : GithubIssue.t :=
  {| GithubIssue.labels :=
       [label "frontend"; label "bug"; label "legacy"; label "team-data platform"];
     GithubIssue.number := 9; GithubIssue.state := open;
     GithubIssue.user := account "alice";
     GithubIssue.assignee := Some (account "alice");
     GithubIssue.created_at := "2021-02-01T00:00:00Z";
     GithubIssue.updated_at := "2021-02-02T00:00:00Z";
     GithubIssue.title := "Layout breaks"; GithubIssue.body := "details";
     GithubIssue.milestone := None |}.

Definition issue11 : GithubIssue.t :=
  {| GithubIssue.labels := [label "frontend"; label "toString"; label "legacy"];
     GithubIssue.number := 11; GithubIssue.state := open;
     GithubIssue.user := account "constructor";
     GithubIssue.assignee := Some (account "valueOf");
     GithubIssue.created_at := "2021-03-01T00:00:00Z";
     GithubIssue.updated_at := "2021-03-02T00:00:00Z";
     GithubIssue.title := "Rename field"; GithubIssue.body := "see above";
     GithubIssue.milestone := None |}.

Definition issue42Relabelled : GithubIssue.t :=
  GithubIssue.set_labels issue42 [label "bug"; label "feature"; label "bug"].

Definition everyFile (filename : string) : bool := true.

Definition emptyWorld : World.t := {| World.stdout := []; World.written := [] |}.
(** ** Reasoning about the monad *)

Lemma M_bind_inr {A B} (m : M A) (f : A → M B) out out' y :
  (m ≫= f) out = (out', inr y) →
  ∃ x mid, m out = (mid, inr x) ∧ f x mid = (out', inr y).
Proof.
  unfold mbind, M_bind. destruct (m out) as [mid [e|x]]; [done|]. eauto.
Qed.

Lemma M_bind_run {A B} (m : M A) (f : A → M B) out mid x :
  m out = (mid, inr x) → (m ≫= f) out = f x mid.
Proof. unfold mbind, M_bind. by intros ->. Qed.

Lemma lift_inr {A} (m : Throws A) out out' x :
  lift m out = (out', inr x) → out' = out ∧ m = inr x.
Proof. unfold lift. by intros [= -> ->]. Qed.

Lemma M_mapM_inr {A B} (f : A → M B) l out out' ys :
  mapM f l out = (out', inr ys) →
  Forall2 (λ x y, ∃ o o', f x o = (o', inr y)) l ys.
Proof.
  revert out ys. induction l as [|x l IH]; intros out ys; simpl.
  - intros [= <- <-]. constructor.
  - intros (y & mid & Hx & H)%M_bind_inr.
    apply M_bind_inr in H as (k & mid' & Hk & [= <- <-]).
    constructor; eauto.
Qed.

Lemma M_mapM_total {A B} (f : A → M B) l out :
  (∀ x o, ∃ o' y, f x o = (o', inr y)) →
  ∃ out' ys, mapM f l out = (out', inr ys).
Proof.
  intros Hf. revert out. induction l as [|x l IH]; intros out; simpl.
  - by eexists _, _.
  - destruct (Hf x out) as (mid & y & Hx). destruct (IH mid) as (out' & k & Hk).
    exists out', (y :: k). rewrite (M_bind_run _ _ _ _ _ Hx).
    by rewrite (M_bind_run _ _ _ _ _ Hk).
Qed.

Lemma Throws_mapM_inr {A B} (f : A → Throws B) l ys :
  mapM f l = inr ys → Forall2 (λ x y, f x = inr y) l ys.
Proof.
  revert ys. induction l as [|x l IH]; intros ys; simpl.
  - intros [= <-]. constructor.
  - unfold mbind, Throws_bind at 1. destruct (f x) as [e|y] eqn:Hx; [done|].
    unfold mbind, Throws_bind at 1. destruct (mapM f l) as [e|k]; [done|].
    intros [= <-]. constructor; auto.
Qed.

Lemma Throws_mapM_total {A B} (f : A → Throws B) l :
  Forall (λ x, ∃ y, f x = inr y) l → ∃ ys, mapM f l = inr ys.
Proof.
  induction 1 as [|x l [y Hx] _ [k Hk]].
  - by eexists.
  - exists (y :: k).
    change (mapM f (x :: l)) with (y ← f x; k ← mapM f l; mret (y :: k)).
    by rewrite Hx, Hk.
Qed.

(** ** The rich text converter *)

Section Converter.
Variable markdownToAtlassianWikiMarkup : string → Throws string.

Lemma mdToWiki_run md out :
  mdToWiki markdownToAtlassianWikiMarkup md out =
    match markdownToAtlassianWikiMarkup md with
    | inr wiki => (out, inr wiki)
    | inl _ => (out ++ [LogConversionFailed md], inr md)
    end.
Proof.
  unfold mdToWiki, try_catch, lift.
  by destruct (markdownToAtlassianWikiMarkup md).
Qed.

Lemma mdToWiki_total md out :
  ∃ out' text, mdToWiki markdownToAtlassianWikiMarkup md out = (out', inr text).
Proof. rewrite mdToWiki_run. destruct (markdownToAtlassianWikiMarkup md); eauto. Qed.

(** C9: the rich text converter is total. For every input string it
    returns to its caller: the converted markup when the conversion
    succeeds, and the original string, unchanged, when the conversion
    throws; it never throws itself, and the only effect of a failure is
    one line on the console. *)
Theorem C9_mdToWiki_total (md : string) (out : Console) :
  ∃ out' text,
    mdToWiki markdownToAtlassianWikiMarkup md out = (out', inr text) ∧
    match markdownToAtlassianWikiMarkup md with
    | inr wiki => text = wiki ∧ out' = out
    | inl _ => text = md ∧ out' = out ++ [LogConversionFailed md]
    end.
Proof.
  rewrite mdToWiki_run.
  destruct (markdownToAtlassianWikiMarkup md) as [e|wiki]; eauto.
Qed.
End Converter.

(** ** The issue mapper *)

Section Mapper.
Variable markdownToAtlassianWikiMarkup : string → Throws string.
Variable config : Config.t.

Lemma mapGithubCommentsToJiraComments_total cs out :
  ∃ out' comments,
    mapGithubCommentsToJiraComments markdownToAtlassianWikiMarkup cs out
      = (out', inr comments).
Proof.
  unfold mapGithubCommentsToJiraComments.
  erewrite M_bind_run by reflexivity.
  apply M_mapM_total. intros c o.
  destruct (mdToWiki_total markdownToAtlassianWikiMarkup (GithubComment.body c) o)
    as (o' & text & Htext).
  eexists _, _. by erewrite M_bind_run by exact Htext.
Qed.

(** What a successful call returns, field by field. *)
Lemma mapGithubIssueToJiraIssue_inr issue issueComments out out' jira issue' :
  mapGithubIssueToJiraIssue markdownToAtlassianWikiMarkup config issue issueComments out
    = (out', inr (jira, issue')) →
  ∃ entries description customFieldValues comments,
    Config.userMap config = Some entries ∧
    mapLabelsToCustomFields config (GithubIssue.labels (afterPriority config issue))
      = inr customFieldValues ∧
    (issueComments = None → comments = []) ∧
    issue' = afterPriority config issue ∧
    jira =
      {| JiraIssue.key :=
           projectKey config +:+ "-" +:+ Number_toString (GithubIssue.number issue);
         JiraIssue.status := "To Do";
         JiraIssue.resolution :=
           match GithubIssue.state issue with closed => Some "Fixed" | open => None end;
         JiraIssue.reporter :=
           Object_get entries (GithubUser.login (GithubIssue.user issue));
         JiraIssue.assignee :=
           (λ a, resolveAssignee entries (GithubUser.login a)) <$> GithubIssue.assignee issue;
         JiraIssue.fixedVersions :=
           match GithubIssue.milestone issue with
           | Some milestone => [GithubMilestone.title milestone]
           | None => []
           end;
         JiraIssue.created := mapDate (GithubIssue.created_at issue);
         JiraIssue.updated := mapDate (GithubIssue.updated_at issue);
         JiraIssue.summary := GithubIssue.title issue;
         JiraIssue.description := description;
         JiraIssue.issueType :=
           (mapLabelToValue issue (issueTypeMap config) (defaultIssueType config)).1;
         JiraIssue.priority :=
           (mapLabelToValue (afterIssueType config issue)
              (priorityMap config) (defaultPriority config)).1;
         JiraIssue.labels :=
           GithubLabel.name <$> GithubIssue.labels (afterPriority config issue);
         JiraIssue.customFieldValues := customFieldValues;
         JiraIssue.comments := comments |}.
Proof.
  unfold mapGithubIssueToJiraIssue, afterPriority, afterIssueType.
  intros (_ & o1 & _ & H)%M_bind_inr.
  apply M_bind_inr in H as (reporter & o2 & [_ Hrep]%lift_inr & H).
  apply M_bind_inr in H as (assignee & o3 & [_ Hass]%lift_inr & H).
  apply M_bind_inr in H as (description & o4 & _ & H).
  destruct (mapLabelToValue issue _ _) as [issueType issue1]. simpl.
  destruct (mapLabelToValue issue1 _ _) as [priority issue2]. simpl.
  apply M_bind_inr in H as (cfv & o5 & [_ Hcfv]%lift_inr & H).
  apply M_bind_inr in H as (comments & o6 & Hcomments & [= <- <- <-]).
  unfold userMap in *. destruct (Config.userMap config) as [entries|]; [|done].
  injection Hrep as <-.
  exists entries, description, cfv, comments. split_and!; try done.
  - intros ->. by injection Hcomments as _ <-.
  - f_equal. unfold resolveAssignee.
    destruct (GithubIssue.assignee issue); simpl in *; by injection Hass as <-.
Qed.

Lemma Config_complete_inv :
  Config_complete config = true →
  is_Some (Config.userMap config) ∧
  ∃ specs, Config.customFields config = Some specs ∧
    Forall (λ spec, is_Some (FieldSpec.map spec) ∨ is_Some (FieldSpec.prefixes spec))
           specs.
Proof.
  unfold Config_complete.
  intros [HuserMap Hspecs]%andb_true_iff. apply bool_decide_eq_true in HuserMap.
  split; [done|]. destruct (Config.customFields config) as [specs|]; [|done].
  exists specs. split; [done|]. apply Forall_forall. intros spec Hspec.
  rewrite forallb_forall in Hspecs. apply list_elem_of_In, Hspecs in Hspec.
  apply orb_true_iff in Hspec as [H|H]; apply bool_decide_eq_true in H; auto.
Qed.

Lemma customFieldValue_total spec githubLabels :
  is_Some (FieldSpec.map spec) ∨ is_Some (FieldSpec.prefixes spec) →
  ∃ value, customFieldValue spec githubLabels = inr value.
Proof.
  unfold customFieldValue. intros [[m ->]|[ps Hps]]; [by eexists|].
  destruct (FieldSpec.map spec); [by eexists|]. rewrite Hps. by eexists.
Qed.

Lemma mapLabelsToCustomFields_total githubLabels :
  Config_complete config = true →
  ∃ fields, mapLabelsToCustomFields config githubLabels = inr fields.
Proof.
  intros (_ & specs & Hspecs & Hall)%Config_complete_inv.
  unfold mapLabelsToCustomFields.
  rewrite Hspecs. destruct (Nat.eqb _ _); [by eexists|].
  apply Throws_mapM_total. eapply Forall_impl; [exact Hall|].
  intros spec [value Hvalue]%(customFieldValue_total _ githubLabels).
  eexists. by rewrite Hvalue.
Qed.

(** With a complete configuration the mapper returns for every issue and
    every comment group, present or not. *)
Lemma mapGithubIssueToJiraIssue_total issue issueComments out :
  Config_complete config = true →
  ∃ out' jira issue',
    mapGithubIssueToJiraIssue markdownToAtlassianWikiMarkup config issue issueComments out
      = (out', inr (jira, issue')).
Proof.
  intros Hcfg. pose proof (Config_complete_inv Hcfg) as ([entries Hentries] & _).
  unfold mapGithubIssueToJiraIssue.
  erewrite M_bind_run by reflexivity.
  unfold userMap. rewrite Hentries.
  erewrite M_bind_run by reflexivity.
  assert (∃ assignee,
    match GithubIssue.assignee issue with
    | Some assignee =>
        mapped ← inr (Object_get entries (GithubUser.login assignee));
        mret (Some match mapped with
                   | Some jiraUser =>
                       if truthyValue jiraUser then jiraUser
                       else Str (GithubUser.login assignee)
                   | None => Str (GithubUser.login assignee)
                   end)
    | None => mret None
    end = inr assignee :> Throws (option Value)) as [assignee ->].
  { destruct (GithubIssue.assignee issue); by eexists. }
  erewrite M_bind_run by reflexivity.
  destruct (mdToWiki_total markdownToAtlassianWikiMarkup (GithubIssue.body issue)
              (out ++ [LogTransformingIssue (GithubIssue.number issue)]))
    as (o1 & description & Hdescription).
  erewrite M_bind_run by exact Hdescription.
  destruct (mapLabelToValue issue _ _) as [issueType issue1].
  destruct (mapLabelToValue issue1 _ _) as [priority issue2].
  destruct (mapLabelsToCustomFields_total (GithubIssue.labels issue2) Hcfg)
    as [fields Hfields].
  rewrite Hfields. erewrite M_bind_run by reflexivity.
  destruct issueComments as [cs|].
  - destruct (mapGithubCommentsToJiraComments_total cs o1) as (o2 & comments & Hcs).
    erewrite M_bind_run by exact Hcs. by eexists _, _, _.
  - erewrite M_bind_run by reflexivity. by eexists _, _, _.
Qed.

(** C4: every mapped issue has the constant status "To Do"; its
    resolution is "Fixed" if and only if the source issue is closed, and
    null otherwise. *)
Theorem C4_status_and_resolution issue issueComments out out' jira issue' :
  mapGithubIssueToJiraIssue markdownToAtlassianWikiMarkup config issue issueComments out
    = (out', inr (jira, issue')) →
  JiraIssue.status jira = "To Do" ∧
  (JiraIssue.resolution jira = Some "Fixed" ↔ GithubIssue.state issue = closed) ∧
  (GithubIssue.state issue ≠ closed → JiraIssue.resolution jira = None).
Proof.
  intros (entries & description & fields & comments & _ & _ & _ & _ & ->)
    %mapGithubIssueToJiraIssue_inr.
  simpl. destruct (GithubIssue.state issue); naive_solver.
Qed.

(** C10: the [labels] field of a mapped issue lists the names of the labels
    that remain after issue-type and then priority classification; the
    custom-field mapper is handed exactly those labels, and it removes
    nothing: the issue leaves the mapper with the label set that
    classification left. *)
Theorem C10_labels_snapshot issue issueComments out out' jira issue' :
  mapGithubIssueToJiraIssue markdownToAtlassianWikiMarkup config issue issueComments out
    = (out', inr (jira, issue')) →
  let remaining := GithubIssue.labels (afterPriority config issue) in
  JiraIssue.labels jira = GithubLabel.name <$> remaining ∧
  mapLabelsToCustomFields config remaining = inr (JiraIssue.customFieldValues jira) ∧
  GithubIssue.labels issue' = remaining.
Proof.
  intros (entries & description & fields & comments & _ & Hfields & _ & -> & ->)
    %mapGithubIssueToJiraIssue_inr.
  by simpl.
Qed.

(** C5, as amended: the reporter is the user-map entry of the source
    user's login, with no fallback, and is undefined when there is no
    entry and the login is not the name of a member of Object.prototype;
    the assignee is null when the source issue has none, the user-map
    entry of the assignee's login when that entry is a non-empty string,
    and the raw login when the entry is the empty string, or when there
    is no entry and the login is not the name of a member of
    Object.prototype. *)
Theorem C5_identity_resolution issue issueComments out out' jira issue' :
  mapGithubIssueToJiraIssue markdownToAtlassianWikiMarkup config issue issueComments out
    = (out', inr (jira, issue')) →
  ∃ entries, Config.userMap config = Some entries ∧
    (∀ jiraUser,
       entries !! GithubUser.login (GithubIssue.user issue) = Some jiraUser →
       JiraIssue.reporter jira = Some (Str jiraUser)) ∧
    (entries !! GithubUser.login (GithubIssue.user issue) = None →
     GithubUser.login (GithubIssue.user issue) ∉ Object_prototype_members →
     JiraIssue.reporter jira = None) ∧
    (GithubIssue.assignee issue = None → JiraIssue.assignee jira = None) ∧
    ∀ assignee, GithubIssue.assignee issue = Some assignee →
      let login := GithubUser.login assignee in
      (∀ jiraUser, entries !! login = Some jiraUser → jiraUser ≠ "" →
         JiraIssue.assignee jira = Some (Str jiraUser)) ∧
      (entries !! login = Some "" → JiraIssue.assignee jira = Some (Str login)) ∧
      (entries !! login = None → login ∉ Object_prototype_members →
         JiraIssue.assignee jira = Some (Str login)).
Proof.
  intros (entries & description & fields & comments & Hentries & _ & _ & _ & ->)
    %mapGithubIssueToJiraIssue_inr.
  exists entries. simpl. unfold Object_get. split_and!; [done| | |by intros ->|].
  - by intros jiraUser ->.
  - intros -> Hmember. by rewrite bool_decide_false.
  - intros assignee ->. simpl. unfold resolveAssignee, Object_get. split_and!.
    + intros jiraUser -> Hne. by destruct jiraUser.
    + by intros ->.
    + intros -> Hmember. by rewrite bool_decide_false.
Qed.
End Mapper.

(** ** The label classifier *)

Lemma filter_ext_in {A} (P Q : A → Prop)
    `{!∀ x, Decision (P x), !∀ x, Decision (Q x)} (l : list A) :
  (∀ x, x ∈ l → P x ↔ Q x) → filter P l = filter Q l.
Proof.
  induction l as [|x l IH]; intros HPQ; [done|].
  rewrite !filter_cons, IH by (intros; apply HPQ; by right).
  destruct (decide (P x)) as [HP|HP], (decide (Q x)) as [HQ|HQ];
    try done; exfalso; apply (HPQ x) in HP || apply (HPQ x) in HQ; done || by left.
Qed.

Lemma filter_all {A} (P : A → Prop) `{!∀ x, Decision (P x)} (l : list A) :
  (∀ x, x ∈ l → P x) → filter P l = l.
Proof.
  induction l as [|x l IH]; intros HP; [done|].
  rewrite filter_cons_True by (apply HP; by left).
  f_equal. apply IH. intros; apply HP; by right.
Qed.

Lemma set_labels_same issue :
  GithubIssue.set_labels issue (GithubIssue.labels issue) = issue.
Proof. by destruct issue. Qed.

Lemma Table_get_entry (map : Table) k v :
  NoDup (Object_keys map) → (k, v) ∈ map → Table_get map k = Some v.
Proof.
  unfold Object_keys. induction map as [|[k' v'] map IH]; simpl.
  - by intros _ ?%elem_of_nil.
  - intros [Hk' Hnd]%NoDup_cons [[= -> ->]|Hin]%elem_of_cons.
    + by rewrite String.eqb_refl.
    + destruct (String.eqb_spec k' k) as [->|_]; [|by apply IH].
      destruct Hk'. by apply (list_elem_of_fmap_2 fst _ (k, v)).
Qed.

Lemma mapLabelToValue_step_match (map : Table) currentValue issue k v :
  k ∈ labelNames issue → Table_get map k = Some v →
  mapLabelToValue_step map (currentValue, issue) k =
    (v, GithubIssue.set_labels issue
          (filter (λ label, GithubLabel.name label ≠ k) (GithubIssue.labels issue))).
Proof.
  intros Hin Hget. unfold mapLabelToValue_step, includes.
  fold (labelNames issue). by rewrite bool_decide_true, Hget.
Qed.

Lemma mapLabelToValue_step_skip (map : Table) currentValue issue k :
  k ∉ labelNames issue →
  mapLabelToValue_step map (currentValue, issue) k = (currentValue, issue).
Proof.
  intros Hin. unfold mapLabelToValue_step, includes.
  fold (labelNames issue). by rewrite bool_decide_false.
Qed.

(** The reduction over a run of table entries: the value of the last entry
    whose key is a label name, and every label named by a key removed. *)
Lemma mapLabelToValue_fold (map entries : Table) currentValue issue :
  NoDup (Object_keys entries) →
  (∀ k v, (k, v) ∈ entries → Table_get map k = Some v) →
  fold_left (mapLabelToValue_step map) (Object_keys entries) (currentValue, issue) =
    (default currentValue
       ((λ entry, entry.2) <$> last (filter (λ entry, entry.1 ∈ labelNames issue) entries)),
     GithubIssue.set_labels issue
       (filter (λ label, GithubLabel.name label ∉ Object_keys entries)
               (GithubIssue.labels issue))).
Proof.
  unfold Object_keys.
  revert currentValue issue.
  induction entries as [|[k v] entries IH]; intros currentValue issue Hnd Hget.
  - simpl. rewrite filter_all by (intros; apply not_elem_of_nil).
    by rewrite set_labels_same.
  - rewrite fmap_cons in Hnd |- *. apply NoDup_cons in Hnd as [Hk Hnd].
    cbn [fold_left fst]. destruct (decide (k ∈ labelNames issue)) as [Hin|Hin].
    + rewrite (mapLabelToValue_step_match map _ _ k v) by (done || apply Hget; by left).
      rewrite IH by (done || intros; apply Hget; by right).
      rewrite (filter_cons_True (λ entry : string * string, entry.1 ∈ labelNames issue))
        by done.
      rewrite last_cons. f_equal.
      * set (issue1 := GithubIssue.set_labels issue _).
        rewrite (filter_ext_in (λ entry : string * string, entry.1 ∈ labelNames issue1)
                   (λ entry : string * string, entry.1 ∈ labelNames issue)).
        { by destruct (last _). }
        subst issue1.
        intros [k' v'] Hentry. unfold labelNames. simpl.
        rewrite !list_elem_of_fmap. setoid_rewrite list_elem_of_filter.
        split; [intros (label & -> & _ & Hlabel); eauto|].
        intros (label & -> & Hlabel).
        exists label. split_and!; try done. intros Heq. apply Hk.
        rewrite <-Heq. by apply (list_elem_of_fmap_2 fst _ (_, v')).
      * simpl. rewrite list_filter_filter. f_equal. apply list_filter_iff.
        intros label. rewrite not_elem_of_cons. tauto.
    + rewrite mapLabelToValue_step_skip by done.
      rewrite IH by (done || intros; apply Hget; by right).
      rewrite (filter_cons_False (λ entry : string * string, entry.1 ∈ labelNames issue))
        by done.
      do 2 f_equal.
      apply filter_ext_in. intros label Hlabel. rewrite not_elem_of_cons.
      split; [|tauto]. intros ?. split; [|done]. intros Heq. apply Hin.
      rewrite <-Heq. by apply list_elem_of_fmap_2.
Qed.

(** C1, as amended: with a non-empty table the classifier visits every
    key in table order and does not stop at the first match. It returns the
    mapped value of the LAST table key that is among the issue's label
    names (the default when none is) and removes every label whose name is
    a table key; the labels that match no table key, and only those, remain
    for the later steps. *)
Theorem C1_last_match_wins (issue : GithubIssue.t) (map : Table) (defaultValue : string) :
  map ≠ [] →
  NoDup (Object_keys map) →
  mapLabelToValue issue (Some map) defaultValue =
    (default defaultValue
       ((λ entry, entry.2) <$> last (filter (λ entry, entry.1 ∈ labelNames issue) map)),
     GithubIssue.set_labels issue
       (filter (λ label, GithubLabel.name label ∉ Object_keys map)
               (GithubIssue.labels issue))).
Proof.
  intros Hne Hnd. unfold mapLabelToValue.
  destruct map as [|entry map']; [done|].
  unfold Object_values. rewrite length_fmap. simpl Nat.eqb. cbv iota.
  apply mapLabelToValue_fold; [done|].
  intros k v Hin. by apply Table_get_entry.
Qed.

(** ** The run: grouping, mapping and assembling *)

Lemma Set_to_array_fold (xs seen : list string) :
  NoDup seen →
  let result := fold_left
    (λ seen x, if bool_decide (x ∈ seen) then seen else seen ++ [x]) xs seen in
  NoDup result ∧ ∀ v, v ∈ result ↔ v ∈ seen ∨ v ∈ xs.
Proof.
  revert seen. induction xs as [|x xs IH]; intros seen Hnd; simpl.
  - split; [done|]. intros v. rewrite elem_of_nil. tauto.
  - case_bool_decide as Hx.
    + destruct (IH seen Hnd) as [Hnd' Hin]. split; [done|].
      intros v. rewrite Hin, elem_of_cons.
      split; [tauto|]. intros [?|[->|?]]; auto.
    + destruct (IH (seen ++ [x])) as [Hnd' Hin].
      { apply NoDup_app. split_and!; [done| |apply NoDup_singleton].
        intros y Hy ->%list_elem_of_singleton. done. }
      split; [done|]. intros v.
      rewrite Hin, elem_of_app, list_elem_of_singleton, elem_of_cons. tauto.
Qed.

Lemma projectVersions_spec (issues : list JiraIssue.t) :
  NoDup (projectVersions issues) ∧
  ∀ v, v ∈ projectVersions issues ↔
       ∃ issue, issue ∈ issues ∧ v ∈ JiraIssue.fixedVersions issue.
Proof.
  unfold projectVersions, Set_to_array.
  destruct (Set_to_array_fold (flat_map JiraIssue.fixedVersions issues) [])
    as [Hnd Hin]; [constructor|].
  split; [done|]. intros v. rewrite Hin, elem_of_nil, list_elem_of_In, in_flat_map.
  setoid_rewrite list_elem_of_In. tauto.
Qed.

Section Run.
Variable markdownToAtlassianWikiMarkup : string → Throws string.
Variable config : Config.t.

(** What a successful run returns: the comments were fetched, every issue
    was mapped with its group of the dictionary, and one project holds
    the mapped issues. *)
Lemma mapGithubDataToJiraData_inr githubData out out' jiraData issues' :
  mapGithubDataToJiraData markdownToAtlassianWikiMarkup config githubData out
    = (out', inr (jiraData, issues')) →
  ∃ githubComments dictionary mapped,
    GithubData.githubComments githubData = Some githubComments ∧
    createCommentDictionary (Some githubComments) = inr dictionary ∧
    Forall2
      (λ issue result, ∃ o o',
         mapGithubIssueToJiraIssue markdownToAtlassianWikiMarkup config issue
           (commentsOf dictionary issue) o = (o', inr result))
      (GithubData.githubIssues githubData) mapped ∧
    issues' = mapped.*2 ∧
    jiraData =
      {| JiraData.projects :=
           [ {| JiraProject.name := repo config;
                JiraProject.externalName := repo config;
                JiraProject.key := Config.projectKey config;
                JiraProject.issues := mapped.*1;
                JiraProject.versions := projectVersions mapped.*1 |} ] |}.
Proof.
  unfold mapGithubDataToJiraData.
  intros (dictionary & o1 & [_ Hdict]%lift_inr & H)%M_bind_inr.
  apply M_bind_inr in H as (mapped & o2 & Hmapped & [= <- <- <-]).
  destruct (GithubData.githubComments githubData) as [githubComments|] eqn:Hcs;
    [|done].
  exists githubComments, dictionary, mapped. split_and!; try done.
  unfold mapGithubIssuesToJiraIssues in Hmapped.
  apply M_bind_inr in Hmapped as (_ & o3 & _ & Hmapped).
  by apply M_mapM_inr in Hmapped.
Qed.

#[local] Instance issueKey_inj :
  Inj (=) (=) (λ number, projectKey config +:+ "-" +:+ Number_toString number).
Proof.
  intros m n Heq. unfold Number_toString in Heq.
  apply (inj (String.app _)), (inj (String.app _)) in Heq.
  by apply (inj pretty).
Qed.

(** C3: in a run every target issue's key is the configured project key,
    a hyphen and the source issue's number; the keys are pairwise distinct
    whenever the source issue numbers are. *)
Theorem C3_issue_keys githubData out out' jiraData issues' :
  mapGithubDataToJiraData markdownToAtlassianWikiMarkup config githubData out
    = (out', inr (jiraData, issues')) →
  ∃ project, JiraData.projects jiraData = [project] ∧
    JiraIssue.key <$> JiraProject.issues project =
      (λ issue, projectKey config +:+ "-" +:+ Number_toString (GithubIssue.number issue))
        <$> GithubData.githubIssues githubData ∧
    (NoDup (GithubIssue.number <$> GithubData.githubIssues githubData) →
     NoDup (JiraIssue.key <$> JiraProject.issues project)).
Proof.
  intros (githubComments & dictionary & mapped & _ & _ & Hmapped & _ & ->)
    %mapGithubDataToJiraData_inr.
  eexists. split; [done|]. simpl.
  assert (JiraIssue.key <$> mapped.*1 =
          (λ issue, projectKey config +:+ "-" +:+ Number_toString (GithubIssue.number issue))
            <$> GithubData.githubIssues githubData) as Hkeys.
  { induction Hmapped as [|issue [jira issue'] issues results (o & o' & Hissue) _ IH];
      [done|].
    apply mapGithubIssueToJiraIssue_inr in Hissue
      as (? & ? & ? & ? & _ & _ & _ & _ & ->).
    simpl. by f_equal. }
  split; [done|]. intros Hnd. rewrite Hkeys.
  rewrite (list_fmap_compose GithubIssue.number
             (λ number, projectKey config +:+ "-" +:+ Number_toString number)).
  by apply (NoDup_fmap_2 _).
Qed.

(** C8: the [versions] of the assembled project hold exactly the strings
    that occur in the [fixedVersions] of some issue, each of them once,
    for every collection of issues and so for the issues of every run. *)
Theorem C8_versions_distinct_union githubData out :
  (∀ issues : list JiraIssue.t,
     NoDup (projectVersions issues) ∧
     ∀ v, v ∈ projectVersions issues ↔
          ∃ issue, issue ∈ issues ∧ v ∈ JiraIssue.fixedVersions issue) ∧
  (∀ out' jiraData issues',
     mapGithubDataToJiraData markdownToAtlassianWikiMarkup config githubData out
       = (out', inr (jiraData, issues')) →
     ∃ project, JiraData.projects jiraData = [project] ∧
       NoDup (JiraProject.versions project) ∧
       ∀ v, v ∈ JiraProject.versions project ↔
            ∃ issue, issue ∈ JiraProject.issues project ∧
                     v ∈ JiraIssue.fixedVersions issue).
Proof.
  split; [apply projectVersions_spec|].
  intros out' jiraData issues'
    (githubComments & dictionary & mapped & _ & _ & _ & _ & ->)
    %mapGithubDataToJiraData_inr.
  eexists. split; [done|]. apply projectVersions_spec.
Qed.

(** C2: a run whose comments collection is absent ([null], the value the
    program supplies when comments are not fetched) does not complete:
    [createCommentDictionary] throws a TypeError before any issue is
    mapped, whatever the issues and the configuration. The issue mapper
    itself is prepared for a missing group: whenever it returns for an
    issue without one, the comments list is empty. *)
Theorem C2_absent_comments_throw (githubIssues : list GithubIssue.t)
    (issue : GithubIssue.t) (out : Console) :
  mapGithubDataToJiraData markdownToAtlassianWikiMarkup config
    {| GithubData.githubIssues := githubIssues;
       GithubData.githubComments := None |} out
  = (out, inl (TypeError "Cannot read properties of null")) ∧
  match mapGithubIssueToJiraIssue markdownToAtlassianWikiMarkup config issue None out with
  | (_, inr (jira, _)) => JiraIssue.comments jira = []
  | (_, inl _) => True
  end.
Proof.
  split; [reflexivity|].
  destruct (mapGithubIssueToJiraIssue _ _ _ _ _) as [out' [e|[jira issue']]] eqn:Hrun;
    [done|].
  apply mapGithubIssueToJiraIssue_inr in Hrun
    as (? & ? & ? & comments & _ & _ & Hcomments & _ & ->).
  simpl. by apply Hcomments.
Qed.
End Run.

(** Without a [customFields] entry the custom field mapper throws; with an
    empty one it returns the empty list. *)
Lemma mapLabelsToCustomFields_absent config githubLabels :
  Config.customFields config = None →
  mapLabelsToCustomFields config githubLabels
    = inl (TypeError "Cannot read properties of undefined").
Proof. unfold mapLabelsToCustomFields. by intros ->. Qed.

Lemma mapLabelsToCustomFields_empty config githubLabels :
  Config.customFields config = Some [] →
  mapLabelsToCustomFields config githubLabels = inr [].
Proof. unfold mapLabelsToCustomFields. by intros ->. Qed.

(** ** The custom field mapper, prefix mode *)

Lemma prefix_isPrefixOf prefix label :
  String.prefix prefix label = true ↔ isPrefixOf prefix label.
Proof.
  unfold isPrefixOf. revert label.
  induction prefix as [|a prefix IH]; intros [|b label]; simpl.
  - split; [by exists ""|done].
  - split; [by eexists|done].
  - split; [done|by intros [rest ?]].
  - destruct (ascii_dec a b) as [->|Hne].
    + rewrite IH. split; intros [rest Hrest]; exists rest.
      * by rewrite Hrest.
      * by injection Hrest.
    + split; [done|]. intros [rest [= ? _]]. done.
Qed.

Lemma startsWith_some_prefix prefixes label :
  existsb (λ prefix, startsWith label prefix) prefixes = true ↔
  startsWithOneOf prefixes label.
Proof.
  unfold startsWithOneOf, startsWith. rewrite existsb_exists, Exists_exists.
  setoid_rewrite prefix_isPrefixOf. by setoid_rewrite list_elem_of_In.
Qed.

Lemma List_filter_decide {A} (f : A → bool) (P : A → Prop)
    `{!∀ x, Decision (P x)} (l : list A) :
  (∀ x, f x = true ↔ P x) → List.filter f l = filter P l.
Proof.
  intros Hf. induction l as [|x l IH]; [done|].
  simpl. rewrite filter_cons, IH.
  destruct (f x) eqn:Hx, (decide (P x)) as [HP|HP]; try done.
  - by apply Hf in Hx.
  - apply Hf in HP. congruence.
Qed.

Lemma fold_left_snoc {A B} (g : A → B) (l : list A) (acc : list B) :
  fold_left (λ acc x, acc ++ [g x]) l acc = acc ++ (g <$> l).
Proof.
  revert acc. induction l as [|x l IH]; intros acc; simpl.
  - by rewrite app_nil_r.
  - by rewrite IH, <-app_assoc.
Qed.

Lemma split_cons_inv s separator : ∃ w ws, split s separator = w :: ws.
Proof.
  destruct s as [|c s]; simpl; [by eexists _, _|].
  destruct (Ascii.eqb c separator); [by eexists _, _|].
  destruct (split s separator); by eexists _, _.
Qed.

Lemma join_cons_char c w ws separator :
  join (String c w :: ws) separator = String c (join (w :: ws) separator).
Proof. by destruct ws. Qed.

(** Splitting at the spaces and joining with underscores replaces every
    space by an underscore. *)
Lemma join_split_spaces s : join (split s " "%char) "_" = spacesToUnderscores s.
Proof.
  induction s as [|c s IH]; [done|]. simpl.
  destruct (split_cons_inv s " "%char) as (w & ws & Hsplit).
  rewrite Hsplit in IH |- *.
  destruct (Ascii.eqb c " ").
  - by rewrite <-IH.
  - by rewrite join_cons_char, IH.
Qed.

Lemma customFieldValue_prefixes spec prefixes githubLabels :
  FieldSpec.map spec = None →
  FieldSpec.prefixes spec = Some prefixes →
  customFieldValue spec githubLabels
    = inr (Str <$> prefixModeValues prefixes (GithubLabel.name <$> githubLabels)).
Proof.
  intros Hmap Hprefixes. unfold customFieldValue, prefixModeValues.
  rewrite Hmap, Hprefixes. f_equal.
  rewrite fold_left_snoc, app_nil_l, <-!list_fmap_compose.
  rewrite (List_filter_decide _ (startsWithOneOf prefixes))
    by (intros; apply startsWith_some_prefix).
  apply list_fmap_ext. intros _ label _. simpl. f_equal. apply join_split_spaces.
Qed.

(** C6: for a field specification in prefix mode (prefixes set, no map),
    the value list consists of exactly the input labels whose name starts
    with at least one configured prefix, in input order, each with every
    configured prefix replaced in turn by the empty string and then every
    space replaced by an underscore. In particular the prefixes ["team-"]
    turn the label "team-backend infra" into the value "backend_infra". *)
Theorem C6_prefix_mode (config : Config.t) (specs : list FieldSpec.t)
    (githubLabels : list GithubLabel.t) (fields : list JiraCustomField.t) :
  Config.customFields config = Some specs →
  mapLabelsToCustomFields config githubLabels = inr fields →
  Forall2
    (λ spec field, ∀ prefixes,
       FieldSpec.map spec = None →
       FieldSpec.prefixes spec = Some prefixes →
       JiraCustomField.value field
         = Str <$> prefixModeValues prefixes (GithubLabel.name <$> githubLabels))
    specs fields ∧
  customFieldValue teamSpec [label "team-backend infra"] = inr [Str "backend_infra"].
Proof.
  intros Hspecs Hfields. split; [|by vm_compute].
  unfold mapLabelsToCustomFields in Hfields. rewrite Hspecs in Hfields.
  destruct specs as [|spec specs].
  { injection Hfields as <-. constructor. }
  change (Nat.eqb (length (spec :: specs)) 0) with false in Hfields.
  apply Throws_mapM_inr in Hfields.
  eapply Forall2_impl; [exact Hfields|].
  intros spec' field Hfield prefixes Hmap Hprefixes. simpl in Hfield.
  rewrite (customFieldValue_prefixes _ _ _ Hmap Hprefixes) in Hfield.
  by injection Hfield as <-.
Qed.

(** ** The comment grouper *)

Lemma split_app pre rest separator :
  split (pre +:+ String separator rest) separator
    = split pre separator ++ split rest separator.
Proof.
  induction pre as [|c pre IH]; simpl.
  - by rewrite Ascii.eqb_refl.
  - destruct (Ascii.eqb c separator); [by rewrite IH|].
    rewrite IH. by destruct (split_cons_inv pre separator) as (w & ws & ->).
Qed.

Lemma split_no_separator s separator :
  containsChar separator s = false → split s separator = [s].
Proof.
  induction s as [|c s IH]; [done|]. simpl.
  intros [Hc Hs]%orb_false_iff. by rewrite Hc, IH.
Qed.

(** The key of a comment is the part of its [issue_url] after the last
    slash. *)
Lemma issueNumberOf_trailing comment pre segment :
  GithubComment.issue_url comment = pre +:+ "/" +:+ segment →
  containsChar "/" segment = false →
  issueNumberOf comment = segment.
Proof.
  intros Hurl Hsegment. unfold issueNumberOf, pop. rewrite Hurl.
  change ("/" +:+ segment) with (String "/" segment).
  rewrite split_app, (split_no_separator segment) by done.
  by rewrite last_snoc.
Qed.

Lemma createCommentDictionary_fold comments dictionary key :
  fold_left createCommentDictionary_step comments dictionary !! key
    = extendGroup (dictionary !! key) (groupOf key comments).
Proof.
  revert dictionary. induction comments as [|comment comments IH]; intros dictionary.
  - done.
  - simpl. rewrite IH. unfold createCommentDictionary_step, groupOf.
    rewrite lookup_insert, filter_cons.
    cbv zeta.
    destruct (decide (issueNumberOf comment = key)) as [Heq|Hne]; [|done].
    rewrite Heq.
    destruct (dictionary !! key) as [group|], (filter _ comments) as [|next more];
      simpl; by rewrite <-?app_assoc.
Qed.

Lemma createCommentDictionary_lookup comments key :
  fold_left createCommentDictionary_step comments ∅ !! key
    = match groupOf key comments with
      | [] => None
      | group => Some group
      end.
Proof.
  rewrite createCommentDictionary_fold, lookup_empty.
  by destruct (groupOf key comments).
Qed.

(** C7: the comment grouper files each comment under the trailing path
    segment of its [issue_url] (a URL ending in /42 goes under "42"); the
    group of a key holds the comments with that key in input order; and an
    issue whose number has no group is mapped, without an error, to an
    empty comments list. *)
Theorem C7_comment_groups (markdownToAtlassianWikiMarkup : string → Throws string)
    (config : Config.t) (githubComments : list GithubComment.t)
    (issue : GithubIssue.t) (out : Console) :
  Config_complete config = true →
  ∃ dictionary,
    createCommentDictionary (Some githubComments) = inr dictionary ∧
    (∀ key, dictionary !! key =
            match groupOf key githubComments with
            | [] => None
            | group => Some group
            end) ∧
    (∀ comment pre segment,
       GithubComment.issue_url comment = pre +:+ "/" +:+ segment →
       containsChar "/" segment = false →
       issueNumberOf comment = segment) ∧
    (dictionary !! Number_toString (GithubIssue.number issue) = None →
     ∃ out' jira issue',
       mapGithubIssueToJiraIssue markdownToAtlassianWikiMarkup config issue
         (commentsOf dictionary issue) out = (out', inr (jira, issue')) ∧
       JiraIssue.comments jira = []).
Proof.
  intros Hconfig. eexists. split; [reflexivity|]. split_and!.
  - apply createCommentDictionary_lookup.
  - apply issueNumberOf_trailing.
  - intros Hnone.
    destruct (mapGithubIssueToJiraIssue_total markdownToAtlassianWikiMarkup config
                issue (commentsOf (fold_left createCommentDictionary_step githubComments ∅) issue)
                out Hconfig)
      as (out' & jira & issue' & Hrun).
    exists out', jira, issue'. split; [done|].
    apply mapGithubIssueToJiraIssue_inr in Hrun
      as (? & ? & ? & comments & _ & _ & Hcomments & _ & ->).
    simpl. by apply Hcomments.
Qed.

(** ** The properties at the sample records *)

Lemma C1_last_match_wins_witness :
  sampleIssueTypeMap ≠ [] ∧
  NoDup (Object_keys sampleIssueTypeMap) ∧
  mapLabelToValue issue42 (Some sampleIssueTypeMap) "Story"
    = ("Story", GithubIssue.set_labels issue42 []).
Proof.
  split_and!.
  - discriminate.
  - apply (bool_decide_unpack _). vm_compute. exact I.
  - rewrite (C1_last_match_wins issue42 sampleIssueTypeMap "Story").
    + vm_compute. reflexivity.
    + discriminate.
    + apply (bool_decide_unpack _). vm_compute. exact I.
Defined.

(** C1, as stated, fails: with the table bug -> Bug, feature -> Story (in
    that order), the default "Story" and the labels feature, bug, the
    classifier does not yield "Bug" with the label feature left; it yields
    "Story" and leaves no label. *)
Lemma C1_first_match_counterexample :
  ¬ ((mapLabelToValue issue42 (Some sampleIssueTypeMap) "Story").1 = "Bug" ∧
     labelNames (mapLabelToValue issue42 (Some sampleIssueTypeMap) "Story").2
       = ["feature"]).
Proof. vm_compute. intros [Hvalue _]. discriminate Hvalue. Qed.

Lemma C3_issue_keys_witness :
  ∃ out' jiraData issues',
    mapGithubDataToJiraData sampleConverter sampleConfig sampleData []
      = (out', inr (jiraData, issues')) ∧
    ∃ project, JiraData.projects jiraData = [project] ∧
      JiraIssue.key <$> JiraProject.issues project = ["PRJ-42"; "PRJ-7"] ∧
      NoDup (JiraIssue.key <$> JiraProject.issues project).
Proof.
  eexists _, _, _. split; [vm_compute; reflexivity|].
  edestruct (C3_issue_keys sampleConverter sampleConfig sampleData [])
    as (project & Hproject & Hkeys & Hdistinct); [vm_compute; reflexivity|].
  exists project. split_and!; [exact Hproject|exact Hkeys|].
  apply Hdistinct. apply (bool_decide_unpack _). vm_compute. exact I.
Defined.

Lemma C4_status_and_resolution_witness :
  ∃ out' jira issue',
    mapGithubIssueToJiraIssue sampleConverter sampleConfig issue42 None []
      = (out', inr (jira, issue')) ∧
    JiraIssue.status jira = "To Do" ∧
    (JiraIssue.resolution jira = Some "Fixed" ↔ GithubIssue.state issue42 = closed) ∧
    (GithubIssue.state issue42 ≠ closed → JiraIssue.resolution jira = None).
Proof.
  eexists _, _, _. split; [vm_compute; reflexivity|].
  eapply (C4_status_and_resolution sampleConverter sampleConfig issue42 None []).
  vm_compute. reflexivity.
Defined.

Lemma C5_identity_resolution_witness :
  (∃ out' jira issue',
     mapGithubIssueToJiraIssue sampleConverter sampleConfig issue42 None []
       = (out', inr (jira, issue')) ∧
     JiraIssue.reporter jira = Some (Str "alice.jira") ∧
     JiraIssue.assignee jira = Some (Str "octocat")) ∧
  (∃ out' jira issue',
     mapGithubIssueToJiraIssue sampleConverter sampleConfig issue7 None []
       = (out', inr (jira, issue')) ∧
     JiraIssue.reporter jira = None ∧
     JiraIssue.assignee jira = None).
Proof.
  split.
  - eexists _, _, _. split; [vm_compute; reflexivity|].
    edestruct (C5_identity_resolution sampleConverter sampleConfig issue42 None [])
      as (entries & Hentries & Hreporter & _ & _ & Hassignee); [vm_compute; reflexivity|].
    injection Hentries as <-. split.
    + apply Hreporter. vm_compute. reflexivity.
    + destruct (Hassignee (account "octocat") eq_refl) as (_ & Hempty & _).
      apply Hempty. vm_compute. reflexivity.
  - eexists _, _, _. split; [vm_compute; reflexivity|].
    edestruct (C5_identity_resolution sampleConverter sampleConfig issue7 None [])
      as (entries & Hentries & _ & Hunmapped & Hnone & _); [vm_compute; reflexivity|].
    injection Hentries as <-. split.
    + apply Hunmapped; [vm_compute; reflexivity|].
      apply (bool_decide_unpack _). vm_compute. exact I.
    + apply Hnone. reflexivity.
Defined.

(** C5, as stated, fails: the user map has the entry "" for the login
    octocat, and the assignee of an issue assigned to octocat is not that
    entry but the raw login. *)
Lemma C5_empty_entry_counterexample :
  ∃ out' jira issue',
    mapGithubIssueToJiraIssue sampleConverter sampleConfig issue42 None []
      = (out', inr (jira, issue')) ∧
    sampleUserMap !! "octocat" = Some "" ∧
    JiraIssue.assignee jira ≠ Str <$> sampleUserMap !! "octocat" ∧
    JiraIssue.assignee jira = Some (Str "octocat").
Proof.
  eexists _, _, _. split; [vm_compute; reflexivity|].
  split_and!; vm_compute; (reflexivity || discriminate).
Qed.

Lemma C6_prefix_mode_witness :
  ∃ fields,
    Config.customFields sampleConfig = Some sampleSpecs ∧
    mapLabelsToCustomFields sampleConfig [label "team-backend infra"] = inr fields ∧
    JiraCustomField.value <$> fields = [[Str "backend_infra"]].
Proof.
  eexists. split; [reflexivity|]. split; [vm_compute; reflexivity|].
  destruct (C6_prefix_mode sampleConfig sampleSpecs [label "team-backend infra"]
              [ {| JiraCustomField.fieldName := "Team";
                   JiraCustomField.fieldType := "labels";
                   JiraCustomField.value := [Str "backend_infra"] |} ])
    as [Hfields _]; [reflexivity|vm_compute; reflexivity|].
  reflexivity.
Defined.

Lemma C7_comment_groups_witness :
  Config_complete sampleConfig = true ∧
  ∃ dictionary,
    createCommentDictionary (Some sampleComments) = inr dictionary ∧
    dictionary !! "7" =
      Some [ commentOn "https://api.github.com/repos/o/widgets/issues/7" "first";
             commentOn "https://api.github.com/repos/o/widgets/issues/7" "second" ] ∧
    ∃ out' jira issue',
      mapGithubIssueToJiraIssue sampleConverter sampleConfig issue42
        (commentsOf dictionary issue42) [] = (out', inr (jira, issue')) ∧
      JiraIssue.comments jira = [].
Proof.
  split; [vm_compute; reflexivity|].
  destruct (C7_comment_groups sampleConverter sampleConfig sampleComments issue42 [])
    as (dictionary & Hdictionary & Hgroups & _ & Hnone); [vm_compute; reflexivity|].
  exists dictionary. split_and!; [exact Hdictionary| |].
  - rewrite Hgroups. vm_compute. reflexivity.
  - apply Hnone. rewrite Hgroups. vm_compute. reflexivity.
Defined.

Lemma C8_versions_distinct_union_witness :
  ∃ out' jiraData issues',
    mapGithubDataToJiraData sampleConverter sampleConfig sampleData []
      = (out', inr (jiraData, issues')) ∧
    ∃ project, JiraData.projects jiraData = [project] ∧
      NoDup (JiraProject.versions project) ∧
      ∀ v, v ∈ JiraProject.versions project ↔
           ∃ issue, issue ∈ JiraProject.issues project ∧
                    v ∈ JiraIssue.fixedVersions issue.
Proof.
  eexists _, _, _. split; [vm_compute; reflexivity|].
  eapply (C8_versions_distinct_union sampleConverter sampleConfig sampleData []).
  vm_compute. reflexivity.
Defined.

Lemma C10_labels_snapshot_witness :
  ∃ out' jira issue',
    mapGithubIssueToJiraIssue sampleConverter sampleConfig issue7
      (Some sampleComments) [] = (out', inr (jira, issue')) ∧
    JiraIssue.labels jira = ["team-backend infra"] ∧
    mapLabelsToCustomFields sampleConfig (GithubIssue.labels issue')
      = inr (JiraIssue.customFieldValues jira) ∧
    GithubIssue.labels issue' = [label "team-backend infra"].
Proof.
  eexists _, _, _. split; [vm_compute; reflexivity|].
  edestruct (C10_labels_snapshot sampleConverter sampleConfig issue7
               (Some sampleComments) [])
    as (Hlabels & Hfields & Hremaining); [vm_compute; reflexivity|].
  split_and!.
  - rewrite Hlabels. vm_compute. reflexivity.
  - rewrite Hremaining. exact Hfields.
  - rewrite Hremaining. vm_compute. reflexivity.
Defined.

(** ** More about the label classifier *)

Lemma mapLabelToValue_step_issue (map : Table) currentValue issue k :
  (mapLabelToValue_step map (currentValue, issue) k).2 =
    GithubIssue.set_labels issue (labelsOutside [k] (GithubIssue.labels issue)).
Proof.
  unfold mapLabelToValue_step, includes, labelsOutside.
  fold (labelNames issue). case_bool_decide as Hin; simpl.
  - f_equal. apply list_filter_iff. intros l.
    rewrite not_elem_of_cons. split; [|tauto]. intros ?. split; [done|apply not_elem_of_nil].
  - rewrite filter_all; [by rewrite set_labels_same|].
    intros l Hl. rewrite not_elem_of_cons. split; [|apply not_elem_of_nil].
    intros Heq. apply Hin. rewrite <-Heq. by apply list_elem_of_fmap_2.
Qed.

Lemma labelsOutside_app keys1 keys2 labels :
  labelsOutside keys2 (labelsOutside keys1 labels) = labelsOutside (keys1 ++ keys2) labels.
Proof.
  unfold labelsOutside. rewrite list_filter_filter. apply list_filter_iff.
  intros l. rewrite elem_of_app. tauto.
Qed.

Lemma mapLabelToValue_fold_issue (map : Table) keys acc :
  (fold_left (mapLabelToValue_step map) keys acc).2 =
    GithubIssue.set_labels acc.2 (labelsOutside keys (GithubIssue.labels acc.2)).
Proof.
  revert acc. induction keys as [|k keys IH]; intros [currentValue issue].
  - simpl. unfold labelsOutside. rewrite filter_all by (intros; apply not_elem_of_nil).
    by rewrite set_labels_same.
  - cbn [fold_left]. rewrite IH, mapLabelToValue_step_issue. cbn [snd].
    change (GithubIssue.labels (GithubIssue.set_labels issue ?ls)) with ls.
    by rewrite (labelsOutside_app [k] keys).
Qed.

Lemma mapLabelToValue_issue issue map defaultValue :
  (mapLabelToValue issue map defaultValue).2 =
    GithubIssue.set_labels issue (labelsOutside (keysOf map) (GithubIssue.labels issue)).
Proof.
  unfold mapLabelToValue, keysOf.
  assert (GithubIssue.set_labels issue (labelsOutside [] (GithubIssue.labels issue)) = issue)
    as Hnone.
  { unfold labelsOutside. rewrite filter_all by (intros; apply not_elem_of_nil).
    apply set_labels_same. }
  destruct map as [[|entry map]|]; try (simpl; by rewrite Hnone).
  apply (mapLabelToValue_fold_issue (entry :: map) (Object_keys (entry :: map))
           (defaultValue, issue)).
Qed.

Lemma mapLabelToValue_fold_skip (map : Table) keys currentValue issue :
  (∀ k, k ∈ keys → k ∉ labelNames issue) →
  fold_left (mapLabelToValue_step map) keys (currentValue, issue) = (currentValue, issue).
Proof.
  induction keys as [|k keys IH]; intros Hnone; [done|]. cbn [fold_left].
  rewrite mapLabelToValue_step_skip by (apply Hnone; by left).
  apply IH. intros; apply Hnone; by right.
Qed.

Lemma mapLabelToValue_no_match issue map defaultValue :
  (∀ k, k ∈ keysOf map → k ∉ labelNames issue) →
  mapLabelToValue issue map defaultValue = (defaultValue, issue).
Proof.
  intros Hnone. unfold mapLabelToValue. destruct map as [map|]; [|done].
  destruct (Nat.eqb _ _); [done|]. by apply mapLabelToValue_fold_skip.
Qed.

(** X1: when no key of the table is the name of a label of the issue, and
    in particular when the table is absent or empty, the classifier returns
    the default value and leaves the issue as it is. *)
Theorem X1_classifier_no_match (issue : GithubIssue.t) (map : option Table)
    (defaultValue : string) :
  (∀ k, k ∈ keysOf map → k ∉ labelNames issue) →
  mapLabelToValue issue map defaultValue = (defaultValue, issue).
Proof. apply mapLabelToValue_no_match. Qed.

(** X2: whatever the table, the classifier changes nothing of the issue but
    its label list, and what remains of the list is, in the original order,
    every label whose name is not a key of the table. *)
Theorem X2_classifier_frame (issue : GithubIssue.t) (map : option Table)
    (defaultValue : string) :
  (mapLabelToValue issue map defaultValue).2 =
    GithubIssue.set_labels issue
      (filter (λ label, GithubLabel.name label ∉ keysOf map) (GithubIssue.labels issue)).
Proof. apply mapLabelToValue_issue. Qed.

Lemma labelNames_labelsOutside issue keys k :
  k ∈ keys →
  k ∉ labelNames (GithubIssue.set_labels issue (labelsOutside keys (GithubIssue.labels issue))).
Proof.
  intros Hk. unfold labelNames, labelsOutside. simpl.
  rewrite list_elem_of_fmap. intros (l & -> & [Hl _]%list_elem_of_filter). done.
Qed.

(** X3: classifying a second time with the same table finds nothing: it
    returns the default it is given and leaves the issue as the first
    classification left it. *)
Theorem X3_classifier_second_pass (issue : GithubIssue.t) (map : option Table)
    (defaultValue defaultValue' : string) :
  let classified := (mapLabelToValue issue map defaultValue).2 in
  mapLabelToValue classified map defaultValue' = (defaultValue', classified).
Proof.
  simpl. apply mapLabelToValue_no_match. intros k Hk.
  rewrite mapLabelToValue_issue. by apply labelNames_labelsOutside.
Qed.

Lemma Table_get_key (map : Table) k :
  k ∈ Object_keys map → is_Some (Table_get map k).
Proof.
  unfold Object_keys. induction map as [|[k' v] map IH]; simpl.
  - by intros ?%elem_of_nil.
  - intros [->|Hin]%elem_of_cons.
    + rewrite String.eqb_refl. by eexists.
    + destruct (String.eqb k' k); [by eexists|by apply IH].
Qed.

Lemma mapLabelToValue_fold_value (map : Table) keys currentValue issue :
  (∀ k, k ∈ keys → is_Some (Table_get map k)) →
  let value := (fold_left (mapLabelToValue_step map) keys (currentValue, issue)).1 in
  value = currentValue ∨
  ∃ k, k ∈ keys ∧ k ∈ labelNames issue ∧ Table_get map k = Some value.
Proof.
  revert currentValue issue.
  induction keys as [|k keys IH]; intros currentValue issue Hkeys; [by left|].
  cbn [fold_left]. destruct (decide (k ∈ labelNames issue)) as [Hin|Hin].
  - destruct (Hkeys k) as [v Hv]; [by left|].
    rewrite (mapLabelToValue_step_match map _ _ k v) by done.
    destruct (IH v (GithubIssue.set_labels issue
                      (filter (λ label, GithubLabel.name label ≠ k)
                              (GithubIssue.labels issue))))
      as [Hsame|(k' & Hk' & Hlabel & Hget)].
    + intros; apply Hkeys; by right.
    + right. exists k. split_and!; [by left|done|]. cbv zeta. by rewrite Hsame.
    + right. exists k'. split_and!; [by right| |done].
      unfold labelNames in *. simpl in Hlabel.
      apply list_elem_of_fmap in Hlabel as (l & -> & [_ Hl]%list_elem_of_filter).
      by apply list_elem_of_fmap_2.
  - rewrite mapLabelToValue_step_skip by done.
    destruct (IH currentValue issue) as [Hsame|(k' & Hk' & Hlabel & Hget)].
    + intros; apply Hkeys; by right.
    + by left.
    + right. exists k'. split_and!; [by right|done|done].
Qed.

(** X4: the classifier never invents a value: what it returns is the
    default it was given or the value the table maps the name of one of the
    issue's labels to. *)
Theorem X4_classifier_value_origin (issue : GithubIssue.t) (map : option Table)
    (defaultValue : string) :
  let value := (mapLabelToValue issue map defaultValue).1 in
  value = defaultValue ∨
  ∃ table k, map = Some table ∧ k ∈ labelNames issue ∧ Table_get table k = Some value.
Proof.
  unfold mapLabelToValue. destruct map as [table|]; [|by left].
  destruct (Nat.eqb _ _); [by left|].
  destruct (mapLabelToValue_fold_value table (Object_keys table) defaultValue issue)
    as [Hsame|(k & _ & Hlabel & Hget)].
  - intros k. apply Table_get_key.
  - by left.
  - right. by exists table, k.
Qed.

Lemma mapLabelToValue_step_in (map : Table) currentValue issue k :
  k ∈ labelNames issue →
  mapLabelToValue_step map (currentValue, issue) k =
    (default "undefined" (Table_get map k),
     GithubIssue.set_labels issue
       (filter (λ label, GithubLabel.name label ≠ k) (GithubIssue.labels issue))).
Proof.
  intros Hin. unfold mapLabelToValue_step, includes.
  fold (labelNames issue). by rewrite bool_decide_true.
Qed.

Lemma labelNames_without issue k x :
  x ∈ labelNames (GithubIssue.set_labels issue
                    (filter (λ label, GithubLabel.name label ≠ k)
                            (GithubIssue.labels issue)))
  ↔ x ∈ labelNames issue ∧ x ≠ k.
Proof.
  unfold labelNames. simpl. rewrite !list_elem_of_fmap.
  setoid_rewrite list_elem_of_filter. split.
  - intros (l & -> & Hne & Hl). split; [by exists l|done].
  - intros [(l & -> & Hl) Hne]. by exists l.
Qed.

Lemma mapLabelToValue_fold_names (map : Table) keys currentValue issue issue' :
  (∀ k, k ∈ labelNames issue ↔ k ∈ labelNames issue') →
  (fold_left (mapLabelToValue_step map) keys (currentValue, issue)).1 =
  (fold_left (mapLabelToValue_step map) keys (currentValue, issue')).1.
Proof.
  revert currentValue issue issue'.
  induction keys as [|k keys IH]; intros currentValue issue issue' Hsame; [done|].
  cbn [fold_left]. destruct (decide (k ∈ labelNames issue)) as [Hin|Hin].
  - rewrite !mapLabelToValue_step_in by (done || by apply Hsame).
    apply IH. intros x. rewrite !labelNames_without, Hsame. done.
  - rewrite !mapLabelToValue_step_skip by (done || by rewrite <-Hsame).
    by apply IH.
Qed.

(** X29: the value the classifier returns depends on which names the
    issue's labels carry, not on their order or their repetition: two issues
    whose labels carry the same names are classified alike. *)
Theorem X29_classifier_label_order (issue issue' : GithubIssue.t) (map : option Table)
    (defaultValue : string) :
  labelNames issue ⊆ labelNames issue' →
  labelNames issue' ⊆ labelNames issue →
  (mapLabelToValue issue map defaultValue).1 = (mapLabelToValue issue' map defaultValue).1.
Proof.
  intros Hsub Hsub'. unfold mapLabelToValue. destruct map as [table|]; [|done].
  destruct (Nat.eqb _ _); [done|].
  apply mapLabelToValue_fold_names. intros k. split; [apply Hsub|apply Hsub'].
Qed.

(** ** Date normalisation *)

Lemma slice_0_m1_snoc s c : slice_0_m1 (s +:+ String c "") = s.
Proof.
  induction s as [|a s IH]; [done|].
  change (String a s +:+ String c "") with (String a (s +:+ String c "")).
  destruct (s +:+ String c "") as [|b rest] eqn:Hrest.
  - by destruct s.
  - change (slice_0_m1 (String a (String b rest)))
      with (String a (slice_0_m1 (String b rest))).
    by rewrite IH.
Qed.

(** X5: date normalisation drops the last character of its input, whatever
    it is, and appends "+00:00": a timestamp [s] followed by Z becomes [s]
    followed by +00:00, with no other change; the empty string becomes
    "+00:00". *)
Theorem X5_mapDate_suffix :
  (∀ s c, mapDate (s +:+ String c "") = s +:+ "+00:00") ∧
  mapDate "" = "+00:00".
Proof.
  split; [|done]. intros s c. unfold mapDate. by rewrite slice_0_m1_snoc.
Qed.

(** ** More about the custom field mapper *)

Lemma mapLabelsToCustomFields_inr config githubLabels fields :
  mapLabelsToCustomFields config githubLabels = inr fields →
  ∃ specs, Config.customFields config = Some specs ∧
    Forall2
      (λ spec field, ∃ value,
         customFieldValue spec githubLabels = inr value ∧
         field = {| JiraCustomField.fieldName := FieldSpec.fieldName spec;
                    JiraCustomField.fieldType := FieldSpec.fieldType spec;
                    JiraCustomField.value := value |})
      specs fields.
Proof.
  unfold mapLabelsToCustomFields.
  destruct (Config.customFields config) as [specs|]; [|done].
  intros Hfields. exists specs. split; [done|].
  destruct specs as [|spec specs].
  { injection Hfields as <-. constructor. }
  change (Nat.eqb (length (spec :: specs)) 0) with false in Hfields.
  apply Throws_mapM_inr in Hfields.
  eapply Forall2_impl; [exact Hfields|].
  intros spec' field Hfield. simpl in Hfield.
  destruct (customFieldValue spec' githubLabels) as [e|value]; [done|].
  exists value. by injection Hfield as <-.
Qed.

Lemma mapModeValue_get (map : gmap string string) name :
  mapModeValue map name =
    match Object_get map name with
    | Some v => if truthyValue v then Some v else None
    | None => None
    end.
Proof.
  unfold mapModeValue, Object_get. destruct (map !! name) as [[|c entry]|]; [done..|].
  by case_bool_decide.
Qed.

Lemma mapMode_fold (map : gmap string string) names acc :
  fold_left
    (λ acc githubLabel,
       match Object_get map githubLabel with
       | Some v => if truthyValue v then acc ++ [v] else acc
       | None => acc
       end) names acc
  = acc ++ mapModeValues map names.
Proof.
  unfold mapModeValues. revert acc.
  induction names as [|name names IH]; intros acc; simpl.
  - by rewrite app_nil_r.
  - rewrite IH, mapModeValue_get. destruct (Object_get map name) as [v|]; [|done].
    destruct (truthyValue v); [|done]. by rewrite <-app_assoc.
Qed.

(** X6: for a field specification with a map, whatever its prefixes, the
    value list holds, in label order, what each label name contributes:
    the map's own entry for the name when that entry is a non-empty string;
    the inherited member when the map has no own entry and the name is that
    of a member of Object.prototype; and nothing otherwise, that is, when
    the own entry is the empty string or when the name has no own entry and
    names no such member. *)
Theorem X6_map_mode (config : Config.t) (githubLabels : list GithubLabel.t)
    (fields : list JiraCustomField.t) :
  mapLabelsToCustomFields config githubLabels = inr fields →
  ∃ specs, Config.customFields config = Some specs ∧
    Forall2
      (λ spec field, ∀ map,
         FieldSpec.map spec = Some map →
         JiraCustomField.value field
           = mapModeValues map (GithubLabel.name <$> githubLabels))
      specs fields.
Proof.
  intros (specs & Hspecs & Hfields)%mapLabelsToCustomFields_inr.
  exists specs. split; [done|].
  eapply Forall2_impl; [exact Hfields|].
  intros spec field (value & Hvalue & ->) map Hmap. simpl.
  unfold customFieldValue in Hvalue. rewrite Hmap in Hvalue.
  injection Hvalue as <-. by rewrite mapMode_fold.
Qed.

(** X28: in map mode no value is the empty string, and every value comes
    from one of the labels: it is the own entry the map has for the label's
    name, or, when the map has no own entry for that name and the name is
    that of a member of Object.prototype, the inherited member. *)
Theorem X28_map_mode_values (config : Config.t) (githubLabels : list GithubLabel.t)
    (fields : list JiraCustomField.t) :
  mapLabelsToCustomFields config githubLabels = inr fields →
  ∃ specs, Config.customFields config = Some specs ∧
    Forall2
      (λ spec field, ∀ map value,
         FieldSpec.map spec = Some map →
         value ∈ JiraCustomField.value field →
         value ≠ Str "" ∧
         ∃ githubLabel, githubLabel ∈ githubLabels ∧
           let name := GithubLabel.name githubLabel in
           (∃ entry, map !! name = Some entry ∧ value = Str entry) ∨
           (map !! name = None ∧ name ∈ Object_prototype_members ∧
            value = Inherited name))
      specs fields.
Proof.
  intros (specs & Hspecs & Hfields)%mapLabelsToCustomFields_inr.
  exists specs. split; [done|].
  eapply Forall2_impl; [exact Hfields|].
  intros spec field (values & Hvalues & ->) map value Hmap. simpl.
  unfold customFieldValue in Hvalues. rewrite Hmap in Hvalues.
  injection Hvalues as <-. rewrite mapMode_fold, app_nil_l. unfold mapModeValues.
  intros (name & Hname & Hvalue)%list_elem_of_omap.
  apply list_elem_of_fmap in Hname as (githubLabel & -> & HgithubLabel).
  unfold mapModeValue in Hvalue.
  destruct (map !! GithubLabel.name githubLabel) as [[|c entry]|] eqn:Hmapped; [done| |].
  - injection Hvalue as <-. split; [done|]. exists githubLabel. split; [done|].
    left. by eexists.
  - case_bool_decide as Hmember; [|done]. injection Hvalue as <-.
    split; [done|]. exists githubLabel. split; [done|]. by right.
Qed.

(** X7: the mapper returns one field per specification, in the order of the
    specifications, each with the name and the type of its specification,
    also when its value list is empty. *)
Theorem X7_one_field_per_spec (config : Config.t) (githubLabels : list GithubLabel.t)
    (fields : list JiraCustomField.t) :
  mapLabelsToCustomFields config githubLabels = inr fields →
  ∃ specs, Config.customFields config = Some specs ∧
    JiraCustomField.fieldName <$> fields = FieldSpec.fieldName <$> specs ∧
    JiraCustomField.fieldType <$> fields = FieldSpec.fieldType <$> specs.
Proof.
  intros (specs & Hspecs & Hfields)%mapLabelsToCustomFields_inr.
  exists specs. split; [done|].
  clear Hspecs.
  split; induction Hfields as [|spec field specs' fields' (value & _ & ->) _ IH];
    try done; rewrite !fmap_cons, IH; done.
Qed.

Lemma customFieldValue_returns spec githubLabels :
  (∃ value, customFieldValue spec githubLabels = inr value) ↔
  specUsable githubLabels spec.
Proof.
  unfold customFieldValue, specUsable.
  destruct (FieldSpec.map spec) as [map|].
  { split; [intros _; left; by eexists|by eexists]. }
  destruct (FieldSpec.prefixes spec) as [prefixes|].
  { split; [intros _; right; left; by eexists|by eexists]. }
  destruct githubLabels as [|l ls].
  { split; [by auto|by eexists]. }
  split; [by intros [??]|]. intros [[??]|[[??]|?]]; done.
Qed.

(** X8: the custom field mapper returns exactly when the configuration has
    a list of field specifications and every one of them sets a map or
    prefixes, or there is no label to map; in every other case it throws. *)
Theorem X8_custom_fields_return (config : Config.t) (githubLabels : list GithubLabel.t) :
  (∃ fields, mapLabelsToCustomFields config githubLabels = inr fields) ↔
  ∃ specs, Config.customFields config = Some specs ∧
           Forall (specUsable githubLabels) specs.
Proof.
  split.
  - intros [fields (specs & Hspecs & Hfields)%mapLabelsToCustomFields_inr].
    exists specs. split; [done|]. clear Hspecs.
    induction Hfields as [|spec field specs' fields' (value & Hvalue & _) _ IH];
      [constructor|].
    constructor; [|done]. apply customFieldValue_returns. by exists value.
  - intros (specs & Hspecs & Husable). unfold mapLabelsToCustomFields.
    rewrite Hspecs. destruct (Nat.eqb _ _); [by eexists|].
    apply Throws_mapM_total. eapply Forall_impl; [exact Husable|].
    intros spec [value Hvalue]%customFieldValue_returns.
    eexists. by rewrite Hvalue.
Qed.

Lemma spacesToUnderscores_no_space s :
  containsChar " " (spacesToUnderscores s) = false.
Proof.
  induction s as [|c s IH]; [done|]. simpl. rewrite IH.
  destruct (Ascii.eqb c " ") eqn:Hc; [done|]. by rewrite Hc.
Qed.

(** X9: a value produced in prefix mode is a string and never contains a
    space. *)
Theorem X9_prefix_values_without_space (config : Config.t)
    (githubLabels : list GithubLabel.t) (fields : list JiraCustomField.t) :
  mapLabelsToCustomFields config githubLabels = inr fields →
  ∃ specs, Config.customFields config = Some specs ∧
    Forall2
      (λ spec field,
         FieldSpec.map spec = None →
         ∀ value, value ∈ JiraCustomField.value field →
           ∃ text, value = Str text ∧ containsChar " " text = false)
      specs fields.
Proof.
  intros (specs & Hspecs & Hfields)%mapLabelsToCustomFields_inr.
  exists specs. split; [done|].
  eapply Forall2_impl; [exact Hfields|].
  intros spec field (values & Hvalues & ->) Hmap value. simpl.
  destruct (FieldSpec.prefixes spec) as [prefixes|] eqn:Hprefixes.
  - rewrite (customFieldValue_prefixes _ _ _ Hmap Hprefixes) in Hvalues.
    injection Hvalues as <-. unfold prefixModeValues.
    intros (text & -> & (label & -> & _)%list_elem_of_fmap)%list_elem_of_fmap.
    eexists. split; [done|]. apply spacesToUnderscores_no_space.
  - unfold customFieldValue in Hvalues. rewrite Hmap, Hprefixes in Hvalues.
    destruct githubLabels; [|done]. injection Hvalues as <-.
    by intros ?%elem_of_nil.
Qed.

Lemma afterPrefix_Some prefix s rest :
  afterPrefix prefix s = Some rest ↔ s = prefix +:+ rest.
Proof.
  revert s. induction prefix as [|a prefix IH]; intros s; simpl.
  - split; [by intros [= ->]|by intros ->].
  - destruct s as [|b s]; [done|].
    destruct (Ascii.eqb_spec a b) as [->|Hne].
    + rewrite IH. split; [by intros ->|by intros [= ->]].
    + split; [done|]. by intros [= ? _].
Qed.

Lemma replace_unfold s pattern replacement :
  replace s pattern replacement =
    if String.prefix pattern s
    then replacement +:+ drop_chars (String.length pattern) s
    else match s with
         | EmptyString => EmptyString
         | String c s' => String c (replace s' pattern replacement)
         end.
Proof. by destruct s. Qed.

Lemma drop_chars_app prefix rest :
  drop_chars (String.length prefix) (prefix +:+ rest) = rest.
Proof. induction prefix as [|a prefix IH]; [done|]. simpl. apply IH. Qed.

(** Replacing a prefix of a string by the empty string leaves what follows
    the prefix. *)
Lemma replace_prefix prefix rest : replace (prefix +:+ rest) prefix "" = rest.
Proof.
  rewrite replace_unfold.
  assert (String.prefix prefix (prefix +:+ rest) = true) as ->
    by (apply prefix_isPrefixOf; by exists rest).
  apply drop_chars_app.
Qed.

Lemma prefixModeValues_single prefix names :
  prefixModeValues [prefix] names =
    omap (λ name, spacesToUnderscores <$> afterPrefix prefix name) names.
Proof.
  unfold prefixModeValues. induction names as [|name names IH]; [done|].
  rewrite filter_cons. cbn [omap list_omap]. rewrite <-IH.
  destruct (afterPrefix prefix name) as [rest|] eqn:Hafter.
  - apply afterPrefix_Some in Hafter as ->.
    rewrite decide_True by (constructor; by exists rest).
    rewrite fmap_cons. cbn [fmap option_fmap option_map]. do 2 f_equal.
    unfold replacePrefixes. simpl. apply replace_prefix.
  - rewrite decide_False; [done|].
    intros [[rest Hrest]|Hnil%Exists_nil]%Exists_cons; [|done].
    apply afterPrefix_Some in Hrest. congruence.
Qed.

(** X10: with a single configured prefix, and no map, the value list holds,
    for each label whose name starts with the prefix, in label order, what
    follows the prefix in the name, its spaces turned into underscores;
    the other labels contribute nothing. *)
Theorem X10_single_prefix (config : Config.t) (githubLabels : list GithubLabel.t)
    (fields : list JiraCustomField.t) :
  mapLabelsToCustomFields config githubLabels = inr fields →
  ∃ specs, Config.customFields config = Some specs ∧
    Forall2
      (λ spec field, ∀ prefix,
         FieldSpec.map spec = None →
         FieldSpec.prefixes spec = Some [prefix] →
         JiraCustomField.value field
           = Str <$> omap (λ name, spacesToUnderscores <$> afterPrefix prefix name)
                          (GithubLabel.name <$> githubLabels))
      specs fields.
Proof.
  intros (specs & Hspecs & Hfields)%mapLabelsToCustomFields_inr.
  exists specs. split; [done|].
  eapply Forall2_impl; [exact Hfields|].
  intros spec field (values & Hvalues & ->) prefix Hmap Hprefixes. simpl.
  rewrite (customFieldValue_prefixes _ _ _ Hmap Hprefixes) in Hvalues.
  injection Hvalues as <-. by rewrite prefixModeValues_single.
Qed.

(** ** More about the comment and issue mappers *)

Section MapperRuns.
Variable markdownToAtlassianWikiMarkup : string → Throws string.
Variable config : Config.t.

Lemma mdToWiki_eq md out :
  mdToWiki markdownToAtlassianWikiMarkup md out =
    (out ++ conversionFailures markdownToAtlassianWikiMarkup [md],
     inr (convertedOrOriginal markdownToAtlassianWikiMarkup md)).
Proof.
  rewrite mdToWiki_run. unfold conversionFailures, convertedOrOriginal. simpl.
  destruct (markdownToAtlassianWikiMarkup md); by rewrite ?app_nil_r.
Qed.

Lemma conversionFailures_cons md mds :
  conversionFailures markdownToAtlassianWikiMarkup (md :: mds) =
    conversionFailures markdownToAtlassianWikiMarkup [md] ++
    conversionFailures markdownToAtlassianWikiMarkup mds.
Proof. unfold conversionFailures. simpl. by rewrite app_nil_r. Qed.

Lemma mapComments_mapM comments out :
  mapM (λ comment,
          body ← mdToWiki markdownToAtlassianWikiMarkup (GithubComment.body comment);
          mret {| JiraComment.body := body;
                  JiraComment.author := GithubUser.login (GithubComment.user comment);
                  JiraComment.created := mapDate (GithubComment.created_at comment) |})
       comments out
  = (out ++ conversionFailures markdownToAtlassianWikiMarkup
              (GithubComment.body <$> comments),
     inr (toJiraComment markdownToAtlassianWikiMarkup <$> comments)).
Proof.
  revert out. induction comments as [|comment comments IH]; intros out.
  - simpl. by rewrite app_nil_r.
  - rewrite !fmap_cons, conversionFailures_cons.
    cbn [mapM]. erewrite M_bind_run; last first.
    { erewrite M_bind_run by apply mdToWiki_eq. reflexivity. }
    erewrite M_bind_run by apply IH.
    by rewrite <-app_assoc.
Qed.

Lemma mapGithubCommentsToJiraComments_eq comments out :
  mapGithubCommentsToJiraComments markdownToAtlassianWikiMarkup comments out =
    (out ++ commentsTrace markdownToAtlassianWikiMarkup (Some comments),
     inr (toJiraComment markdownToAtlassianWikiMarkup <$> comments)).
Proof.
  unfold mapGithubCommentsToJiraComments.
  erewrite M_bind_run by reflexivity.
  rewrite mapComments_mapM. simpl. by rewrite <-app_assoc.
Qed.

(** X11: the comment mapper never throws. It returns one target comment
    per source comment, in order, with the author's login, the normalised
    date and the converted body, or the original body when its conversion
    throws; on the console it leaves the count line followed by one line
    per body whose conversion threw. *)
Theorem X11_comment_mapper (comments : list GithubComment.t) (out : Console) :
  mapGithubCommentsToJiraComments markdownToAtlassianWikiMarkup comments out =
    (out ++ LogMappingComments (length comments) ::
            conversionFailures markdownToAtlassianWikiMarkup
              (GithubComment.body <$> comments),
     inr (toJiraComment markdownToAtlassianWikiMarkup <$> comments)).
Proof. apply mapGithubCommentsToJiraComments_eq. Qed.

(** The run of the issue mapper when the user map is present and the
    custom field mapper returns. *)
Lemma mapGithubIssueToJiraIssue_eq issue issueComments out entries fields :
  Config.userMap config = Some entries →
  mapLabelsToCustomFields config (GithubIssue.labels (afterPriority config issue))
    = inr fields →
  mapGithubIssueToJiraIssue markdownToAtlassianWikiMarkup config issue issueComments out
  = (out ++ issueTrace markdownToAtlassianWikiMarkup issue issueComments,
     inr (mappedIssue markdownToAtlassianWikiMarkup config entries fields
            issue issueComments,
          afterPriority config issue)).
Proof.
  intros Hentries Hfields. unfold mapGithubIssueToJiraIssue.
  erewrite M_bind_run by reflexivity.
  unfold userMap. rewrite Hentries.
  erewrite M_bind_run by reflexivity.
  assert (match GithubIssue.assignee issue with
          | Some assignee =>
              mapped ← inr (Object_get entries (GithubUser.login assignee));
              mret (Some match mapped with
                         | Some jiraUser =>
                             if truthyValue jiraUser then jiraUser
                             else Str (GithubUser.login assignee)
                         | None => Str (GithubUser.login assignee)
                         end)
          | None => mret None
          end
          = inr ((λ a, resolveAssignee entries (GithubUser.login a))
                   <$> GithubIssue.assignee issue) :> Throws (option Value)) as ->.
  { by destruct (GithubIssue.assignee issue). }
  erewrite M_bind_run by reflexivity.
  erewrite M_bind_run by apply mdToWiki_eq.
  unfold afterPriority, afterIssueType in Hfields |- *.
  unfold mappedIssue, afterPriority, afterIssueType.
  destruct (mapLabelToValue issue _ _) as [issueType issue1]. simpl in *.
  destruct (mapLabelToValue issue1 _ _) as [priority issue2]. simpl in *.
  rewrite Hfields. erewrite M_bind_run by reflexivity.
  unfold issueTrace. destruct issueComments as [comments|].
  - erewrite M_bind_run by apply mapGithubCommentsToJiraComments_eq.
    unfold mret, M_ret. f_equal.
    unfold conversionFailures. simpl. by rewrite <-!app_assoc.
  - erewrite M_bind_run by reflexivity.
    unfold mret, M_ret. f_equal.
    unfold conversionFailures. simpl. by rewrite <-!app_assoc, !app_nil_r.
Qed.

Lemma mapGithubIssueToJiraIssue_mappable issue issueComments out out' jira issue' :
  mapGithubIssueToJiraIssue markdownToAtlassianWikiMarkup config issue issueComments out
    = (out', inr (jira, issue')) →
  issueMappable config issue.
Proof.
  intros (entries & ? & fields & ? & Hentries & Hfields & _)
    %mapGithubIssueToJiraIssue_inr.
  split; by eexists.
Qed.

(** X12: the issue mapper returns exactly when the configuration has a
    user map and the custom field mapper returns on the labels that
    classification leaves; the comment group, the texts and the outcome
    of their conversion play no part. *)
Theorem X12_issue_mapper_returns (issue : GithubIssue.t)
    (issueComments : option (list GithubComment.t)) (out : Console) :
  (∃ out' jira issue',
     mapGithubIssueToJiraIssue markdownToAtlassianWikiMarkup config issue
       issueComments out = (out', inr (jira, issue'))) ↔
  issueMappable config issue.
Proof.
  split.
  - intros (out' & jira & issue' & Hrun).
    by eapply mapGithubIssueToJiraIssue_mappable.
  - intros [[entries Hentries] [fields Hfields]].
    eexists _, _, _. by apply mapGithubIssueToJiraIssue_eq.
Qed.

(** Everything a successful call of the issue mapper determines. *)
Lemma mapGithubIssueToJiraIssue_result issue issueComments out out' jira issue' :
  mapGithubIssueToJiraIssue markdownToAtlassianWikiMarkup config issue issueComments out
    = (out', inr (jira, issue')) →
  ∃ entries fields,
    Config.userMap config = Some entries ∧
    mapLabelsToCustomFields config (GithubIssue.labels (afterPriority config issue))
      = inr fields ∧
    out' = out ++ issueTrace markdownToAtlassianWikiMarkup issue issueComments ∧
    jira = mappedIssue markdownToAtlassianWikiMarkup config entries fields
             issue issueComments ∧
    issue' = afterPriority config issue.
Proof.
  intros Hrun.
  destruct (mapGithubIssueToJiraIssue_mappable _ _ _ _ _ _ Hrun)
    as [[entries Hentries] [fields Hfields]].
  rewrite (mapGithubIssueToJiraIssue_eq _ _ _ _ _ Hentries Hfields) in Hrun.
  injection Hrun as <- <- <-. by exists entries, fields.
Qed.

Lemma afterPriority_labels issue :
  afterPriority config issue =
    GithubIssue.set_labels issue
      (labelsOutside (keysOf (issueTypeMap config) ++ keysOf (priorityMap config))
         (GithubIssue.labels issue)).
Proof.
  unfold afterPriority, afterIssueType. rewrite !mapLabelToValue_issue.
  simpl. by rewrite labelsOutside_app.
Qed.

(** X13: the fields of a mapped issue that carry content over: the summary
    is the title; both dates are normalised; [fixedVersions] holds the
    milestone title when there is a milestone and is empty otherwise; the
    description is the converted body, or the body itself when its
    conversion throws; the comments are the target comments of the group,
    in order, and none when there is no group. *)
Theorem X13_carried_fields issue issueComments out out' jira issue' :
  mapGithubIssueToJiraIssue markdownToAtlassianWikiMarkup config issue issueComments out
    = (out', inr (jira, issue')) →
  JiraIssue.summary jira = GithubIssue.title issue ∧
  JiraIssue.created jira = mapDate (GithubIssue.created_at issue) ∧
  JiraIssue.updated jira = mapDate (GithubIssue.updated_at issue) ∧
  JiraIssue.fixedVersions jira =
    match GithubIssue.milestone issue with
    | Some milestone => [GithubMilestone.title milestone]
    | None => []
    end ∧
  JiraIssue.description jira =
    convertedOrOriginal markdownToAtlassianWikiMarkup (GithubIssue.body issue) ∧
  JiraIssue.comments jira =
    match issueComments with
    | Some comments => toJiraComment markdownToAtlassianWikiMarkup <$> comments
    | None => []
    end.
Proof.
  intros (entries & fields & _ & _ & _ & -> & _)%mapGithubIssueToJiraIssue_result.
  by split_and!.
Qed.

(** X14: the [labels] field of a mapped issue lists, in their original
    order, the names of the source labels that are a key of neither the
    issue-type table nor the priority table; and the mapper leaves the
    source issue with exactly those labels and everything else as it
    was. *)
Theorem X14_labels_outside_tables issue issueComments out out' jira issue' :
  mapGithubIssueToJiraIssue markdownToAtlassianWikiMarkup config issue issueComments out
    = (out', inr (jira, issue')) →
  let remaining :=
    filter (λ label, GithubLabel.name label ∉
                       keysOf (issueTypeMap config) ++ keysOf (priorityMap config))
           (GithubIssue.labels issue) in
  JiraIssue.labels jira = GithubLabel.name <$> remaining ∧
  issue' = GithubIssue.set_labels issue remaining.
Proof.
  intros (entries & fields & _ & _ & _ & -> & ->)%mapGithubIssueToJiraIssue_result.
  simpl. by rewrite afterPriority_labels.
Qed.

(** X15: priority is classified from the labels that issue-type
    classification left. A label whose name is a key of both tables is
    consumed by the issue type: when every priority key among the issue's
    labels is also an issue-type key, the priority is the default. *)
Theorem X15_priority_after_issue_type issue issueComments out out' jira issue' :
  mapGithubIssueToJiraIssue markdownToAtlassianWikiMarkup config issue issueComments out
    = (out', inr (jira, issue')) →
  (∀ k, k ∈ keysOf (priorityMap config) → k ∈ labelNames issue →
        k ∈ keysOf (issueTypeMap config)) →
  JiraIssue.priority jira = defaultPriority config.
Proof.
  intros (entries & fields & _ & _ & _ & -> & _)%mapGithubIssueToJiraIssue_result
    Hshared.
  simpl. rewrite mapLabelToValue_no_match; [done|].
  intros k Hk. unfold afterIssueType. rewrite mapLabelToValue_issue.
  unfold labelNames, labelsOutside. simpl.
  intros (l & -> & [Houtside Hl]%list_elem_of_filter)%list_elem_of_fmap.
  apply Houtside, Hshared; [done|]. by apply list_elem_of_fmap_2.
Qed.

(** X30: a login that names a member of Object.prototype and has no own
    entry in the user map is resolved to that inherited member, which is
    not a string: as the reporter it is not undefined, and as the assignee
    it is not replaced by the raw login. *)
Theorem X30_inherited_login issue issueComments out out' jira issue' :
  mapGithubIssueToJiraIssue markdownToAtlassianWikiMarkup config issue issueComments out
    = (out', inr (jira, issue')) →
  ∃ entries, Config.userMap config = Some entries ∧
    (entries !! GithubUser.login (GithubIssue.user issue) = None →
     GithubUser.login (GithubIssue.user issue) ∈ Object_prototype_members →
     JiraIssue.reporter jira
       = Some (Inherited (GithubUser.login (GithubIssue.user issue)))) ∧
    ∀ assignee, GithubIssue.assignee issue = Some assignee →
      entries !! GithubUser.login assignee = None →
      GithubUser.login assignee ∈ Object_prototype_members →
      JiraIssue.assignee jira = Some (Inherited (GithubUser.login assignee)).
Proof.
  intros (entries & fields & Hentries & _ & _ & -> & _)%mapGithubIssueToJiraIssue_result.
  exists entries. split; [done|]. simpl. split.
  - intros Hnone Hmember. unfold Object_get. by rewrite Hnone, bool_decide_true.
  - intros assignee -> Hnone Hmember. simpl.
    unfold resolveAssignee, Object_get. by rewrite Hnone, bool_decide_true.
Qed.

(** X16: the issue mapper only appends to the console: first the line of
    the issue, then a failure line if the conversion of the body threw,
    then, when there is a comment group, its count line and a failure
    line for each comment body whose conversion threw. *)
Theorem X16_issue_mapper_console issue issueComments out out' jira issue' :
  mapGithubIssueToJiraIssue markdownToAtlassianWikiMarkup config issue issueComments out
    = (out', inr (jira, issue')) →
  out' = out ++
    LogTransformingIssue (GithubIssue.number issue) ::
    conversionFailures markdownToAtlassianWikiMarkup [GithubIssue.body issue] ++
    match issueComments with
    | Some comments =>
        LogMappingComments (length comments) ::
        conversionFailures markdownToAtlassianWikiMarkup
          (GithubComment.body <$> comments)
    | None => []
    end.
Proof.
  by intros (entries & fields & _ & _ & -> & _ & _)%mapGithubIssueToJiraIssue_result.
Qed.
End MapperRuns.

(** ** More about the run *)

Lemma M_mapM_Forall_total {A B} (f : A → M B) l out :
  Forall (λ x, ∀ o, ∃ o' y, f x o = (o', inr y)) l →
  ∃ out' ys, mapM f l out = (out', inr ys).
Proof.
  intros Hf. revert out. induction Hf as [|x l Hx _ IH]; intros out.
  - by eexists _, _.
  - destruct (Hx out) as (mid & y & Hy). destruct (IH mid) as (out' & k & Hk).
    exists out', (y :: k). cbn [mapM]. rewrite (M_bind_run _ _ _ _ _ Hy).
    by rewrite (M_bind_run _ _ _ _ _ Hk).
Qed.

Section WholeRun.
Variable markdownToAtlassianWikiMarkup : string → Throws string.
Variable config : Config.t.

(** What a successful run determines, issue by issue. *)
Lemma mapGithubDataToJiraData_result githubData out out' jiraData issues' :
  mapGithubDataToJiraData markdownToAtlassianWikiMarkup config githubData out
    = (out', inr (jiraData, issues')) →
  ∃ githubComments project,
    GithubData.githubComments githubData = Some githubComments ∧
    JiraData.projects jiraData = [project] ∧
    JiraProject.name project = repo config ∧
    JiraProject.externalName project = repo config ∧
    JiraProject.key project = Config.projectKey config ∧
    JiraProject.versions project = projectVersions (JiraProject.issues project) ∧
    issues' = afterPriority config <$> GithubData.githubIssues githubData ∧
    Forall2
      (λ issue jira, ∃ entries fields,
         issueMappable config issue ∧
         jira = mappedIssue markdownToAtlassianWikiMarkup config entries fields issue
                  (match groupOf (Number_toString (GithubIssue.number issue))
                           githubComments with
                   | [] => None
                   | group => Some group
                   end))
      (GithubData.githubIssues githubData) (JiraProject.issues project).
Proof.
  intros (githubComments & dictionary & mapped & Hcomments & Hdictionary
          & Hmapped & -> & ->)%mapGithubDataToJiraData_inr.
  injection Hdictionary as <-.
  eexists githubComments, _. split_and!; try done; simpl.
  - clear Hcomments.
    induction Hmapped as [|issue [jira issue'] issues results (o & o' & Hissue) _ IH];
      [done|].
    apply mapGithubIssueToJiraIssue_result in Hissue
      as (? & ? & _ & _ & _ & _ & ->).
    rewrite !fmap_cons, IH. done.
  - clear Hcomments.
    induction Hmapped as [|issue [jira issue'] issues results (o & o' & Hissue) _ IH];
      [constructor|].
    rewrite fmap_cons. constructor; [|done]. simpl.
    pose proof (mapGithubIssueToJiraIssue_mappable _ _ _ _ _ _ _ _ Hissue) as Hmappable.
    apply mapGithubIssueToJiraIssue_result in Hissue
      as (entries & fields & _ & _ & _ & -> & _).
    exists entries, fields. split; [done|].
    unfold commentsOf. by rewrite createCommentDictionary_lookup.
Qed.

Lemma mapGithubIssuesToJiraIssues_returns githubIssues dictionary out :
  Forall (issueMappable config) githubIssues →
  ∃ out' mapped,
    mapGithubIssuesToJiraIssues markdownToAtlassianWikiMarkup config
      githubIssues dictionary out = (out', inr mapped).
Proof.
  intros Hmappable. unfold mapGithubIssuesToJiraIssues.
  erewrite M_bind_run by reflexivity.
  apply M_mapM_Forall_total.
  eapply Forall_impl; [exact Hmappable|].
  intros issue [[entries Hentries] [fields Hfields]] o.
  eexists _, _. by apply mapGithubIssueToJiraIssue_eq.
Qed.

(** X17: a run returns exactly when the comments collection is present
    and the issue mapper returns for every issue; with no issue at all
    the configuration is never consulted. *)
Theorem X17_run_returns (githubData : GithubData.t) (out : Console) :
  (∃ out' jiraData issues',
     mapGithubDataToJiraData markdownToAtlassianWikiMarkup config githubData out
       = (out', inr (jiraData, issues'))) ↔
  is_Some (GithubData.githubComments githubData) ∧
  Forall (issueMappable config) (GithubData.githubIssues githubData).
Proof.
  split.
  - intros (out' & jiraData & issues' & Hrun).
    apply mapGithubDataToJiraData_result in Hrun
      as (githubComments & project & Hcomments & _ & _ & _ & _ & _ & _ & Hissues).
    split; [by eexists|].
    induction Hissues as [|issue jira issues results (? & ? & Hmappable & _) _ IH];
      by constructor.
  - intros [[githubComments Hcomments] Hmappable].
    unfold mapGithubDataToJiraData. rewrite Hcomments.
    erewrite M_bind_run by reflexivity.
    destruct (mapGithubIssuesToJiraIssues_returns
                (GithubData.githubIssues githubData)
                (fold_left createCommentDictionary_step githubComments ∅) out Hmappable)
      as (out' & mapped & Hmapped).
    erewrite M_bind_run by exact Hmapped. by eexists _, _, _.
Qed.

(** X18: a run leaves every source issue without the labels whose name is
    a key of the issue-type table or of the priority table, and otherwise
    as it found it; the issues stay in their order. *)
Theorem X18_source_issues_after_run githubData out out' jiraData issues' :
  mapGithubDataToJiraData markdownToAtlassianWikiMarkup config githubData out
    = (out', inr (jiraData, issues')) →
  issues' =
    (λ issue,
       GithubIssue.set_labels issue
         (filter (λ label, GithubLabel.name label ∉
                             keysOf (issueTypeMap config) ++ keysOf (priorityMap config))
                 (GithubIssue.labels issue)))
    <$> GithubData.githubIssues githubData.
Proof.
  intros (? & ? & _ & _ & _ & _ & _ & _ & -> & _)%mapGithubDataToJiraData_result.
  apply list_fmap_ext. intros _ issue _. apply afterPriority_labels.
Qed.

(** X19: in a run the comments of every target issue are the target
    comments of exactly the source comments whose [issue_url] ends in the
    issue's number, in the order of the comments collection; a comment
    whose [issue_url] ends in the number of no issue appears nowhere. *)
Theorem X19_comments_of_each_issue githubData out out' jiraData issues' :
  mapGithubDataToJiraData markdownToAtlassianWikiMarkup config githubData out
    = (out', inr (jiraData, issues')) →
  ∃ githubComments project,
    GithubData.githubComments githubData = Some githubComments ∧
    JiraData.projects jiraData = [project] ∧
    Forall2
      (λ issue jira,
         JiraIssue.comments jira =
           toJiraComment markdownToAtlassianWikiMarkup <$>
           filter (λ comment, issueNumberOf comment
                                = Number_toString (GithubIssue.number issue))
                  githubComments)
      (GithubData.githubIssues githubData) (JiraProject.issues project).
Proof.
  intros (githubComments & project & Hcomments & Hproject & _ & _ & _ & _ & _ & Hissues)
    %mapGithubDataToJiraData_result.
  exists githubComments, project. split_and!; try done.
  eapply Forall2_impl; [exact Hissues|].
  intros issue jira (entries & fields & _ & ->). simpl.
  fold (groupOf (Number_toString (GithubIssue.number issue)) githubComments).
  by destruct (groupOf _ _).
Qed.

(** X20: the versions of the project of a run are the milestone titles of
    the source issues: a string is among them exactly when some source
    issue has a milestone with that title. *)
Theorem X20_versions_are_milestones githubData out out' jiraData issues' :
  mapGithubDataToJiraData markdownToAtlassianWikiMarkup config githubData out
    = (out', inr (jiraData, issues')) →
  ∃ project, JiraData.projects jiraData = [project] ∧
    ∀ v, v ∈ JiraProject.versions project ↔
         ∃ issue milestone,
           issue ∈ GithubData.githubIssues githubData ∧
           GithubIssue.milestone issue = Some milestone ∧
           GithubMilestone.title milestone = v.
Proof.
  intros (githubComments & project & _ & Hproject & _ & _ & _ & Hversions & _ & Hissues)
    %mapGithubDataToJiraData_result.
  exists project. split; [done|]. intros v.
  rewrite Hversions, (proj2 (projectVersions_spec _)). clear Hproject Hversions.
  induction Hissues as [|issue jira issues results (entries & fields & _ & ->) _ IH].
  - split; [by intros (? & ?%elem_of_nil & _)|by intros (? & ? & ?%elem_of_nil & _)].
  - split.
    + intros (jira & [->|Hin]%elem_of_cons & Hv).
      * simpl in Hv. destruct (GithubIssue.milestone issue) as [milestone|] eqn:Hm.
        -- apply list_elem_of_singleton in Hv as ->.
           exists issue, milestone. split_and!; [by left|done|done].
        -- by apply elem_of_nil in Hv.
      * destruct (proj1 IH) as (issue' & milestone & Hin' & Hm & Ht); [by eauto|].
        exists issue', milestone. split_and!; [by right|done|done].
    + intros (issue' & milestone & [->|Hin]%elem_of_cons & Hm & Ht).
      * eexists. split; [by left|]. simpl. rewrite Hm, <-Ht. by left.
      * destruct (proj2 IH) as (jira & Hin' & Hv); [by eauto|].
        exists jira. split; [by right|done].
Qed.

(** X21: a successful run yields a single project, named after the
    repository (name and external name), keyed by the configured project
    key, with one target issue per source issue. *)
Theorem X21_one_project githubData out out' jiraData issues' :
  mapGithubDataToJiraData markdownToAtlassianWikiMarkup config githubData out
    = (out', inr (jiraData, issues')) →
  ∃ project, JiraData.projects jiraData = [project] ∧
    JiraProject.name project = Config.repo config ∧
    JiraProject.externalName project = Config.repo config ∧
    JiraProject.key project = Config.projectKey config ∧
    length (JiraProject.issues project) = length (GithubData.githubIssues githubData).
Proof.
  intros (githubComments & project & _ & Hproject & Hname & Hexternal & Hkey & _ & _
          & Hissues)%mapGithubDataToJiraData_result.
  exists project. split_and!; try done. symmetry. by eapply Forall2_length.
Qed.
End WholeRun.

(** ** The order of the versions and the size of the dictionary *)

Lemma Set_to_array_fold_order (xs seen : list string) :
  fold_left (λ seen x, if bool_decide (x ∈ seen) then seen else seen ++ [x]) xs seen
  = seen ++ filter (λ y, y ∉ seen) (firstOccurrences xs).
Proof.
  revert seen. induction xs as [|x xs IH]; intros seen.
  - simpl. by rewrite app_nil_r.
  - cbn [fold_left firstOccurrences]. rewrite filter_cons, list_filter_filter.
    case_bool_decide as Hx.
    + rewrite IH, decide_False by tauto. f_equal. apply list_filter_iff.
      intros y. split; [|tauto]. intros Hy. split; [done|]. by intros ->.
    + rewrite IH, decide_True, <-app_assoc by done. simpl. do 2 f_equal.
      apply list_filter_iff. intros y.
      rewrite elem_of_app, list_elem_of_singleton. tauto.
Qed.

(** X22: the versions of a project are its issues' [fixedVersions] in the
    order of their first occurrence, every later occurrence dropped. *)
Theorem X22_versions_order (issues : list JiraIssue.t) :
  projectVersions issues = firstOccurrences (flat_map JiraIssue.fixedVersions issues).
Proof.
  unfold projectVersions, Set_to_array. rewrite Set_to_array_fold_order.
  simpl. apply filter_all. intros y _. apply not_elem_of_nil.
Qed.

Lemma groupedCount_comm (z1 z2 : list GithubComment.t) (y : nat) :
  length z1 + (length z2 + y) = length z2 + (length z1 + y).
Proof. lia. Qed.

Lemma groupedCount_insert (dictionary : gmap string (list GithubComment.t)) k group :
  groupedCount (<[k := group]> dictionary)
    = length group + groupedCount (delete k dictionary).
Proof.
  unfold groupedCount. rewrite <-insert_delete_eq.
  apply (map_fold_insert_L (λ (_ : string) (g : list GithubComment.t) n, length g + n));
    [|apply lookup_delete_eq].
  intros. apply groupedCount_comm.
Qed.

Lemma groupedCount_step (dictionary : gmap string (list GithubComment.t)) comment :
  groupedCount (createCommentDictionary_step dictionary comment)
    = S (groupedCount dictionary).
Proof.
  unfold createCommentDictionary_step. cbv zeta. rewrite groupedCount_insert.
  destruct (dictionary !! issueNumberOf comment) as [group|] eqn:Hgroup.
  - unfold groupedCount at 2.
    rewrite (map_fold_delete_L _ _ (issueNumberOf comment) group dictionary);
      [|intros; apply groupedCount_comm|done].
    fold (groupedCount (delete (issueNumberOf comment) dictionary)).
    rewrite length_app. simpl. lia.
  - by rewrite delete_id.
Qed.

Lemma groupedCount_fold comments (dictionary : gmap string (list GithubComment.t)) :
  groupedCount (fold_left createCommentDictionary_step comments dictionary)
    = length comments + groupedCount dictionary.
Proof.
  revert dictionary. induction comments as [|comment comments IH]; intros dictionary.
  - done.
  - cbn [fold_left]. rewrite IH, groupedCount_step. simpl. lia.
Qed.

(** X23: grouping loses no comment and duplicates none: the groups of the
    dictionary hold, together, as many comments as the collection, and
    every comment of the collection is in the group of the trailing segment
    of its [issue_url]. *)
Theorem X23_grouping_conserves (githubComments : list GithubComment.t) :
  ∃ dictionary,
    createCommentDictionary (Some githubComments) = inr dictionary ∧
    groupedCount dictionary = length githubComments ∧
    ∀ comment, comment ∈ githubComments →
      ∃ group, dictionary !! issueNumberOf comment = Some group ∧ comment ∈ group.
Proof.
  eexists. split; [reflexivity|]. split.
  - rewrite groupedCount_fold. unfold groupedCount. rewrite map_fold_empty. lia.
  - intros comment Hin. rewrite createCommentDictionary_lookup.
    assert (comment ∈ groupOf (issueNumberOf comment) githubComments) as Hgroup.
    { unfold groupOf. by apply list_elem_of_filter. }
    destruct (groupOf _ _) as [|first rest]; [by apply elem_of_nil in Hgroup|].
    by eexists.
Qed.

(** ** The key of a comment *)

Lemma split_parts_clean s separator :
  Forall (λ part, containsChar separator part = false) (split s separator).
Proof.
  induction s as [|c s IH]; simpl.
  - by repeat constructor.
  - destruct (Ascii.eqb c separator) eqn:Hc; [by constructor|].
    destruct (split s separator) as [|w ws].
    { constructor; [simpl; by rewrite Hc|constructor]. }
    apply Forall_cons in IH as [Hw Hws]. constructor; [|done].
    simpl. by rewrite Hc, Hw.
Qed.

Lemma join_split s separator :
  join (split s separator) (String separator "") = s.
Proof.
  induction s as [|c s IH]; [done|]. simpl.
  destruct (split_cons_inv s separator) as (w & ws & Hsplit).
  rewrite Hsplit in IH |- *.
  destruct (Ascii.eqb_spec c separator) as [->|_].
  - by rewrite <-IH.
  - by rewrite join_cons_char, IH.
Qed.

Lemma string_app_assoc (s1 s2 s3 : string) : (s1 +:+ s2) +:+ s3 = s1 +:+ s2 +:+ s3.
Proof.
  induction s1 as [|c s1 IH]; [done|].
  change ((String c s1 +:+ s2) +:+ s3) with (String c ((s1 +:+ s2) +:+ s3)).
  by rewrite IH.
Qed.

Lemma join_snoc parts part separator :
  join (parts ++ [part]) separator =
    match parts with
    | [] => part
    | _ :: _ => join parts separator +:+ separator +:+ part
    end.
Proof.
  induction parts as [|w parts IH]; [done|].
  destruct parts as [|w' parts]; [done|].
  change (join ((w :: w' :: parts) ++ [part]) separator)
    with (w +:+ separator +:+ join ((w' :: parts) ++ [part]) separator).
  rewrite IH.
  change (join (w :: w' :: parts) separator)
    with (w +:+ separator +:+ join (w' :: parts) separator).
  by rewrite !string_app_assoc.
Qed.

(** X27: the key under which a comment is filed never contains a slash,
    and the [issue_url] is that key alone or ends in a slash followed by
    it. A URL without a slash is its own key; a URL that ends in a slash
    has the empty key. *)
Theorem X27_comment_key (comment : GithubComment.t) :
  containsChar "/" (issueNumberOf comment) = false ∧
  (GithubComment.issue_url comment = issueNumberOf comment ∨
   ∃ pre, GithubComment.issue_url comment = pre +:+ "/" +:+ issueNumberOf comment).
Proof.
  unfold issueNumberOf, pop.
  pose proof (split_parts_clean (GithubComment.issue_url comment) "/") as Hclean.
  pose proof (join_split (GithubComment.issue_url comment) "/") as Hjoin.
  destruct (split_cons_inv (GithubComment.issue_url comment) "/") as (w & ws & Hsplit).
  assert (∃ parts key, split (GithubComment.issue_url comment) "/" = parts ++ [key])
    as (parts & key & Hparts).
  { rewrite Hsplit. destruct (last (w :: ws)) as [key|] eqn:Hlast.
    - apply last_Some in Hlast as [parts ->]. by exists parts, key.
    - by apply last_None in Hlast. }
  rewrite Hparts in Hclean, Hjoin |- *. rewrite last_snoc. simpl.
  apply Forall_app in Hclean as [_ [Hkey _]%Forall_cons].
  split; [done|]. rewrite join_snoc in Hjoin.
  destruct parts as [|w' parts]; [by left|]. right.
  exists (join (w' :: parts) "/"). by rewrite Hjoin.
Qed.

(** ** The top level *)

Section TopLevelRuns.
Variable markdownToAtlassianWikiMarkup : string → Throws string.
Variable config : Config.t.
Variable writable : string → bool.

(** What the [then] steps leave behind. *)
Lemma convertSteps_outcome settled world world' result :
  convertSteps markdownToAtlassianWikiMarkup config writable settled world
    = (world', result) →
  match result with
  | inr jiraData =>
      ∃ objData lines issues',
        settled = inr objData ∧
        writable RAW_GITHUB_FILENAME = true ∧
        writable OUTPUT_FILENAME = true ∧
        mapGithubDataToJiraData markdownToAtlassianWikiMarkup config objData []
          = (lines, inr (jiraData, issues')) ∧
        World.written world' =
          World.written world ++
          [(RAW_GITHUB_FILENAME, RawGithubData objData);
           (OUTPUT_FILENAME, ConvertedData jiraData)]
  | inl e =>
      World.written world' = World.written world ∨
      ∃ objData, settled = inr objData ∧
        World.written world' =
          World.written world ++ [(RAW_GITHUB_FILENAME, RawGithubData objData)]
  end.
Proof.
  unfold convertSteps, writeJSON.
  destruct settled as [e|objData]; [intros [= <- <-]; by left|].
  destruct (writable RAW_GITHUB_FILENAME) eqn:Hraw; [|intros [= <- <-]; by left].
  destruct (mapGithubDataToJiraData _ _ _ _) as [lines [e|[jiraData issues']]] eqn:Hrun.
  { intros [= <- <-]. right. by exists objData. }
  destruct (writable OUTPUT_FILENAME) eqn:Houtput.
  - intros [= <- <-]. exists objData, lines, issues'. split_and!; try done.
    simpl. by rewrite <-app_assoc.
  - intros [= <- <-]. right. by exists objData.
Qed.

(** X24: the conversion is all or nothing. When the chain resolves, the
    retrieval had settled with data, the mapping of that data returned
    the resolved value, and exactly two files were written: github.json
    with the data as retrieved, then output.json with the resolved value.
    When it rejects, output.json was not written, at most github.json
    was, and the last line printed reports the error that is thrown. *)
Theorem X24_all_or_nothing settled world world' result :
  convertFetched markdownToAtlassianWikiMarkup config writable settled world
    = (world', result) →
  match result with
  | inr jiraData =>
      ∃ objData lines issues',
        settled = inr objData ∧
        mapGithubDataToJiraData markdownToAtlassianWikiMarkup config objData []
          = (lines, inr (jiraData, issues')) ∧
        World.written world' =
          World.written world ++
          [(RAW_GITHUB_FILENAME, RawGithubData objData);
           (OUTPUT_FILENAME, ConvertedData jiraData)]
  | inl e =>
      (World.written world' = World.written world ∨
       ∃ objData, settled = inr objData ∧
         World.written world' =
           World.written world ++ [(RAW_GITHUB_FILENAME, RawGithubData objData)]) ∧
      last (World.stdout world') = Some (LogFailedToConvert e)
  end.
Proof.
  unfold convertFetched.
  destruct (convertSteps _ _ _ _ _) as [world1 [e|jiraData]] eqn:Hsteps;
    apply convertSteps_outcome in Hsteps; intros [= <- <-].
  - split; [exact Hsteps|]. simpl. apply last_snoc.
  - destruct Hsteps as (objData & lines & issues' & ? & _ & _ & ? & ?).
    by exists objData, lines, issues'.
Qed.

(** X25: when the comments were not fetched and github.json can be
    written, the chain writes github.json with the data as retrieved,
    prints the failure and rejects with the TypeError of the grouping
    step; no issue is mapped and output.json is not written. *)
Theorem X25_comments_not_fetched (githubIssues : list GithubIssue.t) (world : World.t) :
  writable RAW_GITHUB_FILENAME = true →
  let objData := {| GithubData.githubIssues := githubIssues;
                    GithubData.githubComments := None |} in
  let e := TypeError "Cannot read properties of null" in
  convertFetched markdownToAtlassianWikiMarkup config writable (inr objData) world =
    ({| World.stdout :=
          World.stdout world ++ [LogWriting RAW_GITHUB_FILENAME; LogFailedToConvert e];
        World.written :=
          World.written world ++ [(RAW_GITHUB_FILENAME, RawGithubData objData)] |},
     inl e).
Proof.
  intros Hraw. unfold convertFetched, convertSteps, writeJSON. rewrite Hraw.
  simpl. by rewrite app_nil_r, <-app_assoc.
Qed.

(** X26: the chain resolves exactly when the retrieval settled with data
    whose comments collection is present, the issue mapper returns for
    every issue, and both files can be written. *)
Theorem X26_chain_resolves settled world :
  (∃ world' jiraData,
     convertFetched markdownToAtlassianWikiMarkup config writable settled world
       = (world', inr jiraData)) ↔
  ∃ objData,
    settled = inr objData ∧
    writable RAW_GITHUB_FILENAME = true ∧
    writable OUTPUT_FILENAME = true ∧
    is_Some (GithubData.githubComments objData) ∧
    Forall (issueMappable config) (GithubData.githubIssues objData).
Proof.
  split.
  - intros (world' & jiraData & Hrun). unfold convertFetched in Hrun.
    destruct (convertSteps _ _ _ _ _) as [world1 [e|jiraData']] eqn:Hsteps; [done|].
    apply convertSteps_outcome in Hsteps
      as (objData & lines & issues' & -> & Hraw & Houtput & Hmap & _).
    exists objData. split_and!; try done.
    + apply mapGithubDataToJiraData_result in Hmap
        as (githubComments & ? & Hcomments & _). by eexists.
    + apply mapGithubDataToJiraData_result in Hmap
        as (githubComments & project & _ & _ & _ & _ & _ & _ & _ & Hissues).
      induction Hissues as [|issue jira issues results (? & ? & Hmappable & _) _ IH];
        by constructor.
  - intros (objData & -> & Hraw & Houtput & [githubComments Hcomments] & Hmappable).
    unfold convertFetched, convertSteps, writeJSON. rewrite Hraw.
    assert (∃ lines jiraData issues',
              mapGithubDataToJiraData markdownToAtlassianWikiMarkup config objData []
                = (lines, inr (jiraData, issues')))
      as (lines & jiraData & issues' & ->).
    { unfold mapGithubDataToJiraData. rewrite Hcomments.
      erewrite M_bind_run by reflexivity.
      destruct (mapGithubIssuesToJiraIssues_returns markdownToAtlassianWikiMarkup
                  config (GithubData.githubIssues objData)
                  (fold_left createCommentDictionary_step githubComments ∅) []
                  Hmappable) as (out' & mapped & Hmapped).
      erewrite M_bind_run by exact Hmapped. by eexists _, _, _. }
    rewrite Houtput. by eexists _, _.
Qed.
End TopLevelRuns.

(** ** The further properties at the sample records *)

Lemma X1_classifier_no_match_witness :
  Forall (λ k, k ∉ labelNames issue7) (keysOf (Some sampleIssueTypeMap)) ∧
  mapLabelToValue issue7 (Some sampleIssueTypeMap) "Story" = ("Story", issue7).
Proof.
  assert (Forall (λ k, k ∉ labelNames issue7) (keysOf (Some sampleIssueTypeMap)))
    as Hnone.
  { apply (bool_decide_unpack _). vm_compute. exact I. }
  split; [exact Hnone|].
  apply (X1_classifier_no_match issue7 (Some sampleIssueTypeMap) "Story").
  apply Forall_forall. exact Hnone.
Defined.

Lemma X6_map_mode_witness :
  ∃ fields,
    mapLabelsToCustomFields secondConfig (GithubIssue.labels issue11) = inr fields ∧
    JiraCustomField.value <$> fields = [[Str "UI"; Inherited "toString"]; []] ∧
    ∃ specs, Config.customFields secondConfig = Some specs ∧
      Forall2
        (λ spec field, ∀ map,
           FieldSpec.map spec = Some map →
           JiraCustomField.value field
             = mapModeValues map (GithubLabel.name <$> GithubIssue.labels issue11))
        specs fields.
Proof.
  eexists. split; [vm_compute; reflexivity|]. split; [reflexivity|].
  eapply (X6_map_mode secondConfig (GithubIssue.labels issue11)).
  vm_compute. reflexivity.
Defined.

Lemma X7_one_field_per_spec_witness :
  ∃ fields,
    mapLabelsToCustomFields secondConfig (GithubIssue.labels issue9) = inr fields ∧
    JiraCustomField.fieldName <$> fields = ["Component"; "Team"] ∧
    JiraCustomField.fieldType <$> fields = ["select"; "labels"].
Proof.
  eexists. split; [vm_compute; reflexivity|].
  edestruct (X7_one_field_per_spec secondConfig (GithubIssue.labels issue9))
    as (specs & Hspecs & Hnames & Htypes); [vm_compute; reflexivity|].
  injection Hspecs as <-. split; [exact Hnames|exact Htypes].
Defined.

Lemma X9_prefix_values_without_space_witness :
  ∃ fields,
    mapLabelsToCustomFields sampleConfig (GithubIssue.labels issue7) = inr fields ∧
    JiraCustomField.value <$> fields = [[Str "backend_infra"]] ∧
    ∃ specs, Config.customFields sampleConfig = Some specs ∧
      Forall2
        (λ spec field,
           FieldSpec.map spec = None →
           ∀ value, value ∈ JiraCustomField.value field →
             ∃ text, value = Str text ∧ containsChar " " text = false)
        specs fields.
Proof.
  eexists. split; [vm_compute; reflexivity|]. split; [reflexivity|].
  eapply (X9_prefix_values_without_space sampleConfig (GithubIssue.labels issue7)).
  vm_compute. reflexivity.
Defined.

Lemma X10_single_prefix_witness :
  ∃ fields,
    mapLabelsToCustomFields sampleConfig (GithubIssue.labels issue7) = inr fields ∧
    ∃ specs, Config.customFields sampleConfig = Some specs ∧
      Forall2
        (λ spec field, ∀ prefix,
           FieldSpec.map spec = None →
           FieldSpec.prefixes spec = Some [prefix] →
           JiraCustomField.value field
             = Str <$> omap (λ name, spacesToUnderscores <$> afterPrefix prefix name)
                            (GithubLabel.name <$> GithubIssue.labels issue7))
        specs fields.
Proof.
  eexists. split; [vm_compute; reflexivity|].
  eapply (X10_single_prefix sampleConfig (GithubIssue.labels issue7)).
  vm_compute. reflexivity.
Defined.

Lemma X13_carried_fields_witness :
  ∃ out' jira issue',
    mapGithubIssueToJiraIssue sampleConverter sampleConfig issue42 None []
      = (out', inr (jira, issue')) ∧
    JiraIssue.summary jira = "Crash on start" ∧
    JiraIssue.fixedVersions jira = ["v1.0"] ∧
    JiraIssue.description jira = "<<" ∧
    JiraIssue.comments jira = [].
Proof.
  eexists _, _, _. split; [vm_compute; reflexivity|].
  edestruct (X13_carried_fields sampleConverter sampleConfig issue42 None [])
    as (Hsummary & _ & _ & Hversions & Hdescription & Hcomments);
    [vm_compute; reflexivity|].
  split_and!; [exact Hsummary|exact Hversions|exact Hdescription|exact Hcomments].
Defined.

Lemma X14_labels_outside_tables_witness :
  ∃ out' jira issue',
    mapGithubIssueToJiraIssue sampleConverter secondConfig issue9 None []
      = (out', inr (jira, issue')) ∧
    JiraIssue.labels jira = ["frontend"; "legacy"; "team-data platform"] ∧
    GithubIssue.labels issue'
      = [label "frontend"; label "legacy"; label "team-data platform"].
Proof.
  eexists _, _, _. split; [vm_compute; reflexivity|].
  edestruct (X14_labels_outside_tables sampleConverter secondConfig issue9 None [])
    as (Hlabels & Hissue); [vm_compute; reflexivity|].
  split; [exact Hlabels|]. vm_compute. reflexivity.
Defined.

Lemma X15_priority_after_issue_type_witness :
  ∃ out' jira issue',
    mapGithubIssueToJiraIssue sampleConverter secondConfig issue9 None []
      = (out', inr (jira, issue')) ∧
    Forall (λ k, k ∈ labelNames issue9 → k ∈ keysOf (issueTypeMap secondConfig))
           (keysOf (priorityMap secondConfig)) ∧
    JiraIssue.priority jira = "Low".
Proof.
  eexists _, _, _. split; [vm_compute; reflexivity|].
  assert (Forall (λ k, k ∈ labelNames issue9 → k ∈ keysOf (issueTypeMap secondConfig))
                 (keysOf (priorityMap secondConfig))) as Hshared.
  { apply (bool_decide_unpack _). vm_compute. exact I. }
  split; [exact Hshared|].
  eapply (X15_priority_after_issue_type sampleConverter secondConfig issue9 None []).
  - vm_compute. reflexivity.
  - intros k Hk. exact (proj1 (Forall_forall _ _) Hshared k Hk).
Defined.

Lemma X16_issue_mapper_console_witness :
  ∃ out' jira issue',
    mapGithubIssueToJiraIssue sampleConverter sampleConfig issue42
      (Some sampleComments) [] = (out', inr (jira, issue')) ∧
    out' = [LogTransformingIssue 42; LogConversionFailed "<<"; LogMappingComments 3].
Proof.
  eexists _, _, _. split; [vm_compute; reflexivity|].
  eapply (X16_issue_mapper_console sampleConverter sampleConfig issue42
            (Some sampleComments) []).
  vm_compute. reflexivity.
Defined.

Lemma X18_source_issues_after_run_witness :
  ∃ out' jiraData issues',
    mapGithubDataToJiraData sampleConverter sampleConfig sampleData []
      = (out', inr (jiraData, issues')) ∧
    GithubIssue.labels <$> issues' = [[]; [label "team-backend infra"]] ∧
    issues' =
      (λ issue,
         GithubIssue.set_labels issue
           (filter (λ label, GithubLabel.name label ∉
                               keysOf (issueTypeMap sampleConfig)
                               ++ keysOf (priorityMap sampleConfig))
                   (GithubIssue.labels issue)))
      <$> GithubData.githubIssues sampleData.
Proof.
  eexists _, _, _. split; [vm_compute; reflexivity|]. split; [reflexivity|].
  eapply (X18_source_issues_after_run sampleConverter sampleConfig sampleData []).
  vm_compute. reflexivity.
Defined.

Lemma X19_comments_of_each_issue_witness :
  ∃ out' jiraData issues',
    mapGithubDataToJiraData sampleConverter sampleConfig sampleData []
      = (out', inr (jiraData, issues')) ∧
    ∃ githubComments project,
      GithubData.githubComments sampleData = Some githubComments ∧
      JiraData.projects jiraData = [project] ∧
      Forall2
        (λ issue jira,
           JiraIssue.comments jira =
             toJiraComment sampleConverter <$>
             filter (λ comment, issueNumberOf comment
                                  = Number_toString (GithubIssue.number issue))
                    githubComments)
        (GithubData.githubIssues sampleData) (JiraProject.issues project).
Proof.
  eexists _, _, _. split; [vm_compute; reflexivity|].
  eapply (X19_comments_of_each_issue sampleConverter sampleConfig sampleData []).
  vm_compute. reflexivity.
Defined.

Lemma X20_versions_are_milestones_witness :
  ∃ out' jiraData issues',
    mapGithubDataToJiraData sampleConverter sampleConfig sampleData []
      = (out', inr (jiraData, issues')) ∧
    ∃ project, JiraData.projects jiraData = [project] ∧
      ∀ v, v ∈ JiraProject.versions project ↔
           ∃ issue milestone,
             issue ∈ GithubData.githubIssues sampleData ∧
             GithubIssue.milestone issue = Some milestone ∧
             GithubMilestone.title milestone = v.
Proof.
  eexists _, _, _. split; [vm_compute; reflexivity|].
  eapply (X20_versions_are_milestones sampleConverter sampleConfig sampleData []).
  vm_compute. reflexivity.
Defined.

Lemma X21_one_project_witness :
  ∃ out' jiraData issues',
    mapGithubDataToJiraData sampleConverter sampleConfig sampleData []
      = (out', inr (jiraData, issues')) ∧
    ∃ project, JiraData.projects jiraData = [project] ∧
      JiraProject.name project = "widgets" ∧
      JiraProject.externalName project = "widgets" ∧
      JiraProject.key project = "PRJ" ∧
      length (JiraProject.issues project) = 2.
Proof.
  eexists _, _, _. split; [vm_compute; reflexivity|].
  eapply (X21_one_project sampleConverter sampleConfig sampleData []).
  vm_compute. reflexivity.
Defined.

Lemma X24_all_or_nothing_witness :
  ∃ world' jiraData,
    convertFetched sampleConverter sampleConfig everyFile (inr sampleData) emptyWorld
      = (world', inr jiraData) ∧
    World.written world' =
      [(RAW_GITHUB_FILENAME, RawGithubData sampleData);
       (OUTPUT_FILENAME, ConvertedData jiraData)].
Proof.
  eexists _, _. split; [vm_compute; reflexivity|].
  eassert (convertFetched sampleConverter sampleConfig everyFile (inr sampleData)
             emptyWorld = (_, inr _)) as Hrun by (vm_compute; reflexivity).
  pose proof (X24_all_or_nothing sampleConverter sampleConfig everyFile
                (inr sampleData) emptyWorld _ _ Hrun) as Hall.
  cbv beta iota in Hall.
  destruct Hall as (objData & lines & issues' & Hsettled & _ & Hwritten).
  injection Hsettled as <-. exact Hwritten.
Defined.

Lemma X25_comments_not_fetched_witness :
  everyFile RAW_GITHUB_FILENAME = true ∧
  (convertFetched sampleConverter sampleConfig everyFile
     (inr {| GithubData.githubIssues := [issue42; issue7];
             GithubData.githubComments := None |}) emptyWorld).2
  = inl (TypeError "Cannot read properties of null").
Proof.
  split; [reflexivity|].
  rewrite (X25_comments_not_fetched sampleConverter sampleConfig everyFile
             [issue42; issue7] emptyWorld); reflexivity.
Defined.

Lemma X28_map_mode_values_witness :
  ∃ fields,
    mapLabelsToCustomFields secondConfig (GithubIssue.labels issue11) = inr fields ∧
    ∃ specs, Config.customFields secondConfig = Some specs ∧
      Forall2
        (λ spec field, ∀ map value,
           FieldSpec.map spec = Some map →
           value ∈ JiraCustomField.value field →
           value ≠ Str "" ∧
           ∃ githubLabel, githubLabel ∈ GithubIssue.labels issue11 ∧
             let name := GithubLabel.name githubLabel in
             (∃ entry, map !! name = Some entry ∧ value = Str entry) ∨
             (map !! name = None ∧ name ∈ Object_prototype_members ∧
              value = Inherited name))
        specs fields.
Proof.
  eexists. split; [vm_compute; reflexivity|].
  eapply (X28_map_mode_values secondConfig (GithubIssue.labels issue11)).
  vm_compute. reflexivity.
Defined.

Lemma X29_classifier_label_order_witness :
  labelNames issue42 ⊆ labelNames issue42Relabelled ∧
  labelNames issue42Relabelled ⊆ labelNames issue42 ∧
  (mapLabelToValue issue42 (Some sampleIssueTypeMap) "Task").1 = "Story" ∧
  (mapLabelToValue issue42Relabelled (Some sampleIssueTypeMap) "Task").1 = "Story".
Proof.
  assert (labelNames issue42 ⊆ labelNames issue42Relabelled) as Hsub.
  { apply (bool_decide_unpack _). vm_compute. exact I. }
  assert (labelNames issue42Relabelled ⊆ labelNames issue42) as Hsub'.
  { apply (bool_decide_unpack _). vm_compute. exact I. }
  split_and!; [exact Hsub|exact Hsub'|vm_compute; reflexivity|].
  rewrite <-(X29_classifier_label_order issue42 issue42Relabelled
               (Some sampleIssueTypeMap) "Task" Hsub Hsub').
  vm_compute. reflexivity.
Defined.

Lemma X30_inherited_login_witness :
  ∃ out' jira issue',
    mapGithubIssueToJiraIssue sampleConverter sampleConfig issue11 None []
      = (out', inr (jira, issue')) ∧
    JiraIssue.reporter jira = Some (Inherited "constructor") ∧
    JiraIssue.assignee jira = Some (Inherited "valueOf").
Proof.
  eexists _, _, _. split; [vm_compute; reflexivity|].
  edestruct (X30_inherited_login sampleConverter sampleConfig issue11 None [])
    as (entries & Hentries & Hreporter & Hassignee); [vm_compute; reflexivity|].
  injection Hentries as <-. split.
  - apply Hreporter; [vm_compute; reflexivity|].
    apply (bool_decide_unpack _). vm_compute. exact I.
  - apply (Hassignee (account "valueOf") eq_refl); [vm_compute; reflexivity|].
    apply (bool_decide_unpack _). vm_compute. exact I.
Defined.
